(** * nbpc: the duplicate matcher of [duplicates.py]

    A shallow embedding of the matching engine of [duplicates.py]
    ([clean_model_name], [normalize_for_comparison], [find_matches]) and
    the properties its specification states about it.

    Text.  A Python [str] is modelled by the Standard Library's [string];
    every [ascii] stands for one code point in the range 0..255 (Latin-1),
    on which [str.lower], [str.isspace] and the regular expression class
    [\s] are given exactly as CPython defines them.

    Cells.  The fields that the matcher reads are text columns: a cell is
    a text or is missing ([NaN] or [None]).

    Frames.  A pandas [DataFrame] is a list of column names and a list of
    rows, a row being a finite map from column name to cell; a column that
    the frame does not have raises [KeyError].  The frames are those that
    [load_data] reads with [read_excel]: their index is the default range
    0..n-1, so that the label of a row, which [iterrows] yields, is its
    position, which [iloc] takes.

    Store.  Frames are objects in a store: [df.copy()] allocates a new
    object, [df[col] = ...] updates the object in place.  Functions that
    touch frames run in a state and exception monad over the store. *)

From Stdlib Require Import Ascii String NArith List Bool.
From stdpp Require Import gmap strings list fin_maps.

Local Open Scope string_scope.
Local Open Scope list_scope.

(** ** Characters *)

Module Char.

(** [str.isspace] on one code point: TAB..CR, FS..US, SPACE, NEL, NBSP. *)
Definition isspace (c : ascii) : bool :=
  let n := N_of_ascii c in
  ((9 <=? n) && (n <=? 13) || (28 <=? n) && (n <=? 32)
   || (n =? 133) || (n =? 160))%N.

(** [str.lower] on one code point: A..Z and the Latin-1 capitals
    U+00C0..U+00DE (the multiplication sign U+00D7 apart) move up by 32. *)
Definition lower (c : ascii) : ascii :=
  let n := N_of_ascii c in
  if ((65 <=? n) && (n <=? 90)
      || (192 <=? n) && (n <=? 222) && negb (n =? 215))%N
  then ascii_of_N (n + 32) else c.

End Char.

(** ** The [str] methods the cleaner uses, on lists of code points *)

Module Py.

Definition lower (s : list ascii) : list ascii := map Char.lower s.

Fixpoint lstrip (s : list ascii) : list ascii :=
  match s with
  | c :: t => if Char.isspace c then lstrip t else s
  | [] => []
  end.

Fixpoint rstrip (s : list ascii) : list ascii :=
  match s with
  | c :: t =>
      match rstrip t with
      | [] => if Char.isspace c then [] else [c]
      | t' => c :: t'
      end
  | [] => []
  end.

Definition strip (s : list ascii) : list ascii := rstrip (lstrip s).

(** [s.replace(old, new)] for one-character [old] and [new]. *)
Definition replace (old new : ascii) (s : list ascii) : list ascii :=
  map (fun c => if Ascii.eqb c old then new else c) s.

(** [re.sub(r"\s+", repl, s)]: every maximal run of whitespace becomes
    one [repl]; [in_run] tells that the previous character was whitespace. *)
Fixpoint re_sub_spaces_from (in_run : bool) (repl : ascii) (s : list ascii)
  : list ascii :=
  match s with
  | c :: t =>
      if Char.isspace c
      then (if in_run then re_sub_spaces_from true repl t
            else repl :: re_sub_spaces_from true repl t)
      else c :: re_sub_spaces_from false repl t
  | [] => []
  end.

Definition re_sub_spaces : ascii -> list ascii -> list ascii :=
  re_sub_spaces_from false.

(** [s.split()]: the maximal runs of non-whitespace, in order. *)
Fixpoint split (s : list ascii) : list (list ascii) :=
  match s with
  | c :: t =>
      if Char.isspace c then split t
      else match t with
           | d :: _ =>
               if Char.isspace d then [c] :: split t
               else match split t with
                    | w :: ws => (c :: w) :: ws
                    | [] => [[c]]
                    end
           | [] => [[c]]
           end
  | [] => []
  end.

(** [sep.join(words)]. *)
Fixpoint join (sep : list ascii) (words : list (list ascii)) : list ascii :=
  match words with
  | [] => []
  | [w] => w
  | w :: ws => w ++ sep ++ join sep ws
  end.

End Py.

(** ** Cells *)

(** A cell of a frame: missing ([NaN], which also stands for [None]) or a
    text. *)
Inductive cell : Type :=
  | NaN
  | Str (s : string).

#[global] Instance cell_eq_dec : EqDecision cell.
Proof. solve_decision. Defined.

(** [pd.isna(v)]. *)
Definition isna (v : cell) : bool :=
  match v with NaN => true | Str _ => false end.

(** [str(v)]: the text itself; [str(float("nan"))] is ["nan"]. *)
Definition str (v : cell) : list ascii :=
  match v with
  | NaN => list_ascii_of_string "nan"
  | Str s => list_ascii_of_string s
  end.

(** [v == s] for a text [s]; a missing value equals nothing. *)
Definition eq_str (v : cell) (s : string) : bool :=
  match v with NaN => false | Str t => String.eqb t s end.

(** ** The model-name cleaner *)

Definition punctuation_to_remove : list ascii :=
  list_ascii_of_string ".-_/()[]{}:".

Definition noise_terms : list (list ascii) :=
  map list_ascii_of_string
    [ "notebook"; "laptop"; "gamer"; "gaming"; "kit"; "bundle";
      "ordenador"; "ultrabook";
      "acer"; "dell"; "hp"; "lenovo"; "asus"; "msi"; "apple";
      "microsoft"; "samsung"; "lg"; "huawei"; "razer"; "alienware" ].

Definition space : ascii := " "%char.

Definition clean_model_name (model_name : cell) : string :=
  if isna model_name || eq_str model_name "" then ""
  else
    let cleaned := Py.lower (str model_name) in
    let cleaned := Py.strip cleaned in
    let cleaned :=
      fold_left (fun cleaned char => Py.replace char space cleaned)
                punctuation_to_remove cleaned in
    let cleaned := Py.strip (Py.re_sub_spaces space cleaned) in
    let words := Py.split cleaned in
    let filtered_words := filter (fun w => w ∉ noise_terms) words in
    let cleaned := Py.join [space] filtered_words in
    string_of_list_ascii cleaned.

(** ** Exceptions and results *)

Inductive exn : Type :=
  | KeyError (key : string)
  | IndexError
  | ValueError.

Inductive result (A : Type) : Type :=
  | Ok (a : A)
  | Raise (e : exn).
Arguments Ok {A} a.
Arguments Raise {A} e.

#[global] Instance result_ret : MRet result := fun A a => Ok a.
#[global] Instance result_bind : MBind result := fun A B f m =>
  match m with Ok a => f a | Raise e => Raise e end.

(** [for x in l: s = body(s, x)], stopping at the first exception. *)
Fixpoint for_each {A S : Type} (body : S -> A -> result S) (l : list A) (s : S)
  : result S :=
  match l with
  | [] => Ok s
  | x :: l' => s' ← body s x; for_each body l' s'
  end.

(** ** Frames *)

Record DataFrame : Type := mkDataFrame {
  columns : list string;
  rows : list (gmap string cell)
}.

(** The value a row holds in a column of its frame; a column of the frame
    that the row has no entry for holds a missing value. *)
Definition at_col (col : string) (row : gmap string cell) : cell :=
  default NaN (row !! col).

(** [df[col]] on a frame value: the column as a sequence of cells. *)
Definition getitem (df : DataFrame) (col : string) : result (list cell) :=
  if decide (col ∈ columns df) then Ok (at_col col <$> rows df)
  else Raise (KeyError col).

(** [row[col]] for a row that [iterrows] yields from [df]. *)
Definition row_getitem (df : DataFrame) (row : gmap string cell) (col : string)
  : result cell :=
  if decide (col ∈ columns df) then Ok (at_col col row)
  else Raise (KeyError col).

(** [df[col] = values]: an existing column is overwritten, a new one is
    appended. *)
Definition setitem (df : DataFrame) (col : string) (values : list cell)
  : result DataFrame :=
  if decide (length values = length (rows df)) then
    Ok {| columns := if decide (col ∈ columns df) then columns df
                     else columns df ++ [col];
          rows := zip_with (fun row v => <[col := v]> row) (rows df) values |}
  else Raise ValueError.

(** [series == v], elementwise; a missing value equals nothing. *)
Definition cell_eqb (a b : cell) : bool :=
  match a, b with
  | Str s, Str t => String.eqb s t
  | _, _ => false
  end.

Definition series_eq (series : list cell) (v : cell) : list bool :=
  (fun a => cell_eqb a v) <$> series.

(** [m1 & m2] on boolean series. *)
Definition mask_and (m1 m2 : list bool) : list bool := zip_with andb m1 m2.

(** [df[mask]]: the rows whose mask entry is true. *)
Definition select (df : DataFrame) (mask : list bool) : DataFrame :=
  {| columns := columns df;
     rows := fst <$> filter (fun rb => snd rb = true) (zip (rows df) mask) |}.

(** [df.iterrows()]; the frames come from [read_excel], whose index is
    the range 0..n-1, so that a row's label is its position. *)
Definition iterrows (df : DataFrame) : list (nat * gmap string cell) :=
  zip (seq 0 (length (rows df))) (rows df).

(** [df.iloc[positions]]. *)
Definition iloc (df : DataFrame) (positions : list nat) : result DataFrame :=
  rs ← for_each (fun acc i =>
                   match rows df !! i with
                   | Some row => Ok (acc ++ [row])
                   | None => Raise IndexError
                   end) positions [];
  Ok {| columns := columns df; rows := rs |}.

(** The [Series] methods of [normalize_for_comparison]. *)
Definition fillna (v : string) (series : list cell) : list cell :=
  (fun a => if isna a then Str v else a) <$> series.

Definition astype_str (series : list cell) : list cell :=
  (fun a => Str (string_of_list_ascii (str a))) <$> series.

Definition on_text (f : list ascii -> list ascii) (a : cell) : cell :=
  match a with
  | NaN => NaN
  | Str s => Str (string_of_list_ascii (f (list_ascii_of_string s)))
  end.

Definition str_strip (series : list cell) : list cell :=
  on_text Py.strip <$> series.

Definition str_lower (series : list cell) : list cell :=
  on_text Py.lower <$> series.

Definition apply (f : cell -> string) (series : list cell) : list cell :=
  (fun a => Str (f a)) <$> series.

(** ** The store of frame objects *)

Abbreviation Store := (list DataFrame).

Definition M (A : Type) : Type := Store -> result (A * Store).

#[global] Instance M_ret : MRet M := fun A a σ => Ok (a, σ).
#[global] Instance M_bind : MBind M := fun A B f m σ =>
  match m σ with Ok (a, σ') => f a σ' | Raise e => Raise e end.

Definition lift {A : Type} (r : result A) : M A := fun σ =>
  match r with Ok a => Ok (a, σ) | Raise e => Raise e end.

(** Reading the object behind a reference.  A Python reference always has
    its object; the error case only makes the function total. *)
Definition load (ref : nat) : M DataFrame := fun σ =>
  match σ !! ref with
  | Some df => Ok (df, σ)
  | None => Raise ValueError
  end.

Definition alloc (df : DataFrame) : M nat := fun σ =>
  Ok (length σ, σ ++ [df]).

(** [ref.copy()]: a new object with the same contents. *)
Definition copy (ref : nat) : M nat :=
  df ← load ref; alloc df.

(** [ref[col]]. *)
Definition get (ref : nat) (col : string) : M (list cell) :=
  df ← load ref; lift (getitem df col).

(** [ref[col] = values]: the object is updated in place. *)
Definition set (ref : nat) (col : string) (values : list cell) : M unit :=
  fun σ =>
    match σ !! ref with
    | Some df =>
        match setitem df col values with
        | Ok df' => Ok (tt, <[ref := df']> σ)
        | Raise e => Raise e
        end
    | None => Raise ValueError
    end.

(** ** [normalize_for_comparison] *)

Definition normalize_for_comparison (df : nat) (is_master : bool) : M nat :=
  df ← copy df;
  region ← get df "Region";
  set df "region_norm" (str_lower (str_strip (astype_str (fillna "" region))));;
  let country_col := if is_master then "Country/territory" else "Country" in
  country ← get df country_col;
  set df "country_norm" (str_lower (str_strip (astype_str (fillna "" country))));;
  brand ← get df "Brand";
  set df "brand_norm" (str_lower (str_strip (astype_str (fillna "" brand))));;
  model ← get df "Model Name";
  set df "model_clean" (apply clean_model_name model);;
  cpu ← get df "CPU Model";
  set df "cpu_norm" (str_lower (str_strip (astype_str (fillna "" cpu))));;
  gpu ← get df "GPU Model";
  set df "gpu_norm" (str_lower (str_strip (astype_str (fillna "" gpu))));;
  resolution ← get df "Resolution";
  set df "resolution_norm"
      (str_lower (str_strip (astype_str (fillna "" resolution))));;
  mret df.

(** ** [find_matches] *)

(** The body of the loop over the candidate rows: three filters on the
    normalized master frame, then one of the two index lists grows. *)
Definition match_row (scraped_norm master_norm : DataFrame)
    (lists : list nat * list nat) (it : nat * gmap string cell)
  : result (list nat * list nat) :=
  let '(new_rows_list, duplicate_rows_list) := lists in
  let '(idx, scraped_row) := it in
  m_region ← getitem master_norm "region_norm";
  s_region ← row_getitem scraped_norm scraped_row "region_norm";
  m_country ← getitem master_norm "country_norm";
  s_country ← row_getitem scraped_norm scraped_row "country_norm";
  m_brand ← getitem master_norm "brand_norm";
  s_brand ← row_getitem scraped_norm scraped_row "brand_norm";
  let mask :=
    mask_and (mask_and (series_eq m_region s_region)
                       (series_eq m_country s_country))
             (series_eq m_brand s_brand) in
  let filtered_master := select master_norm mask in
  if (length (rows filtered_master) =? 0)%nat then
    Ok (new_rows_list ++ [idx], duplicate_rows_list)
  else
    f_model ← getitem filtered_master "model_clean";
    s_model ← row_getitem scraped_norm scraped_row "model_clean";
    let model_matches := select filtered_master (series_eq f_model s_model) in
    if (length (rows model_matches) =? 0)%nat then
      Ok (new_rows_list ++ [idx], duplicate_rows_list)
    else
      x_cpu ← getitem model_matches "cpu_norm";
      s_cpu ← row_getitem scraped_norm scraped_row "cpu_norm";
      x_gpu ← getitem model_matches "gpu_norm";
      s_gpu ← row_getitem scraped_norm scraped_row "gpu_norm";
      x_resolution ← getitem model_matches "resolution_norm";
      s_resolution ← row_getitem scraped_norm scraped_row "resolution_norm";
      let cpu_gpu_resolution_matches :=
        select model_matches
          (mask_and (mask_and (series_eq x_cpu s_cpu) (series_eq x_gpu s_gpu))
                    (series_eq x_resolution s_resolution)) in
      if (0 <? length (rows cpu_gpu_resolution_matches))%nat then
        Ok (new_rows_list, duplicate_rows_list ++ [idx])
      else
        Ok (new_rows_list ++ [idx], duplicate_rows_list).

(** The two index lists at the end of the loop. *)
Definition match_rows (scraped_norm master_norm : DataFrame)
  : result (list nat * list nat) :=
  for_each (match_row scraped_norm master_norm) (iterrows scraped_norm) ([], []).

(** The first part of [find_matches]: both frames are normalized, with
    [is_master=False] for the master frame too, and the loop fills the two
    index lists. *)
Definition matcher (scraped_df master_df : nat) : M (list nat * list nat) :=
  scraped_norm ← normalize_for_comparison scraped_df false;
  master_norm ← normalize_for_comparison master_df false;
  scraped_norm_v ← load scraped_norm;
  master_norm_v ← load master_norm;
  lift (match_rows scraped_norm_v master_norm_v).

(** [ref.iloc[positions].copy()]. *)
Definition iloc_copy (ref : nat) (positions : list nat) : M nat :=
  df ← load ref;
  selected ← lift (iloc df positions);
  tmp ← alloc selected;
  copy tmp.

Definition find_matches (scraped_df master_df : nat) : M (nat * nat) :=
  '(new_rows_list, duplicate_rows_list) ← matcher scraped_df master_df;
  new_rows ← iloc_copy scraped_df new_rows_list;
  duplicate_rows ← iloc_copy scraped_df duplicate_rows_list;
  mret (new_rows, duplicate_rows).

(** * Notions used in the statements *)

(** ** Of the cleaner *)

Definition is_punct (c : ascii) : bool :=
  bool_decide (c ∈ punctuation_to_remove).

Definition unpunct (c : ascii) : ascii := if is_punct c then space else c.

(** A word: not empty and free of whitespace. *)
Definition word (w : list ascii) : Prop :=
  w ≠ [] ∧ Forall (fun c => Char.isspace c = false) w.

(** The words of the cleaned model name of a text. *)
Definition clean_words (s : list ascii) : list (list ascii) :=
  filter (fun w => w ∉ noise_terms)
         (Py.split (map unpunct (Py.strip (Py.lower s)))).

(** A character that the lowering and the punctuation pass leave alone. *)
Definition settled (c : ascii) : Prop :=
  is_punct c = false ∧ Char.lower c = c.

(** ** Of the frames *)

(** The canonical key of a cell. *)
Definition norm_key (v : cell) : string :=
  match v with
  | NaN => ""
  | Str s => string_of_list_ascii (Py.lower (Py.strip (list_ascii_of_string s)))
  end.

(** The source column that each derived column is computed from. *)
Definition country_col (is_master : bool) : string :=
  if is_master then "Country/territory" else "Country".

Definition required_columns (is_master : bool) : list string :=
  [ "Region"; country_col is_master; "Brand"; "Model Name"; "CPU Model";
    "GPU Model"; "Resolution" ].

Definition add_column (col : string) (cols : list string) : list string :=
  if decide (col ∈ cols) then cols else cols ++ [col].

Definition put (dst src : string) (f : cell → cell) (row : gmap string cell)
  : gmap string cell :=
  <[dst := f (at_col src row)]> row.

Definition with_column (dst src : string) (f : cell → cell) (df : DataFrame)
  : DataFrame :=
  {| columns := add_column dst (columns df);
     rows := put dst src f <$> rows df |}.

Definition key_cell (v : cell) : cell := Str (norm_key v).
Definition model_cell (v : cell) : cell := Str (clean_model_name v).

(** The row that [normalize_for_comparison] makes of a row. *)
Definition norm_row (is_master : bool) (row : gmap string cell)
  : gmap string cell :=
  put "resolution_norm" "Resolution" key_cell
    (put "gpu_norm" "GPU Model" key_cell
      (put "cpu_norm" "CPU Model" key_cell
        (put "model_clean" "Model Name" model_cell
          (put "brand_norm" "Brand" key_cell
            (put "country_norm" (country_col is_master) key_cell
              (put "region_norm" "Region" key_cell row)))))).

Definition derived_columns : list string :=
  [ "region_norm"; "country_norm"; "brand_norm"; "model_clean"; "cpu_norm";
    "gpu_norm"; "resolution_norm" ].

(** The frame that [normalize_for_comparison] builds from [df]. *)
Definition normalized (is_master : bool) (df : DataFrame) : DataFrame :=
  with_column "resolution_norm" "Resolution" key_cell
    (with_column "gpu_norm" "GPU Model" key_cell
      (with_column "cpu_norm" "CPU Model" key_cell
        (with_column "model_clean" "Model Name" model_cell
          (with_column "brand_norm" "Brand" key_cell
            (with_column "country_norm" (country_col is_master) key_cell
              (with_column "region_norm" "Region" key_cell df)))))).

(** Agreement of a master row with a candidate row on derived columns. *)
Definition agree (cols : list string) (c m : gmap string cell) : bool :=
  forallb (fun col => cell_eqb (at_col col m) (at_col col c)) cols.

Definition stage1_columns : list string :=
  [ "region_norm"; "country_norm"; "brand_norm" ].
Definition stage2_columns : list string := [ "model_clean" ].
Definition stage3_columns : list string :=
  [ "cpu_norm"; "gpu_norm"; "resolution_norm" ].

(** The master rows that pass the three filters for candidate row [c]. *)
Definition survivors (master : list (gmap string cell)) (c : gmap string cell)
  : list (gmap string cell) :=
  filter (fun m => agree stage3_columns c m = true)
    (filter (fun m => agree stage2_columns c m = true)
      (filter (fun m => agree stage1_columns c m = true) master)).

(** Whether the loop body files a normalized candidate row as a duplicate. *)
Definition duplicate_row (master : list (gmap string cell))
    (c : gmap string cell) : bool :=
  (0 <? length (survivors master c))%nat.

(** The labels of the rows of [sn] that the loop files as duplicates
    ([b = true]) or as new ([b = false]). *)
Definition labels (b : bool) (sn mn : DataFrame) : list nat :=
  fst <$> filter (fun it => duplicate_row (rows mn) (snd it) = b) (iterrows sn).

Definition rows_at (l : list (gmap string cell)) (positions : list nat)
  : list (gmap string cell) :=
  omap (fun i => l !! i) positions.

(** The output frame for one class of candidate rows. *)
Definition output (b : bool) (ds dm : DataFrame) : DataFrame :=
  {| columns := columns ds;
     rows := rows_at (rows ds)
               (labels b (normalized false ds) (normalized false dm)) |}.

(** ** The keys of a record, as [find_matches] derives them

    Both frames are normalized with [is_master=False], so the country key
    of a master record comes from its ["Country"] field too. *)

Definition region_key (row : gmap string cell) : string :=
  norm_key (at_col "Region" row).
Definition country_key (row : gmap string cell) : string :=
  norm_key (at_col "Country" row).
Definition brand_key (row : gmap string cell) : string :=
  norm_key (at_col "Brand" row).
Definition model_key (row : gmap string cell) : string :=
  clean_model_name (at_col "Model Name" row).
Definition cpu_key (row : gmap string cell) : string :=
  norm_key (at_col "CPU Model" row).
Definition gpu_key (row : gmap string cell) : string :=
  norm_key (at_col "GPU Model" row).
Definition resolution_key (row : gmap string cell) : string :=
  norm_key (at_col "Resolution" row).

(** ** The three stages, in the words of the specification *)

Definition agree_coarse (C M : gmap string cell) : Prop :=
  region_key M = region_key C ∧ country_key M = country_key C
  ∧ brand_key M = brand_key C.

Definition agree_model (C M : gmap string cell) : Prop :=
  model_key M = model_key C.

Definition agree_spec (C M : gmap string cell) : Prop :=
  cpu_key M = cpu_key C ∧ gpu_key M = gpu_key C
  ∧ resolution_key M = resolution_key C.

#[global] Instance agree_coarse_dec C M : Decision (agree_coarse C M).
Proof. unfold agree_coarse. apply _. Defined.
#[global] Instance agree_model_dec C M : Decision (agree_model C M).
Proof. unfold agree_model. apply _. Defined.
#[global] Instance agree_spec_dec C M : Decision (agree_spec C M).
Proof. unfold agree_spec. apply _. Defined.

Definition stage1 (master : list (gmap string cell)) (C : gmap string cell)
  : list (gmap string cell) :=
  filter (agree_coarse C) master.

Definition stage2 (master : list (gmap string cell)) (C : gmap string cell)
  : list (gmap string cell) :=
  filter (agree_model C) (stage1 master C).

Definition stage3 (master : list (gmap string cell)) (C : gmap string cell)
  : list (gmap string cell) :=
  filter (agree_spec C) (stage2 master C).

(** The source field of the country key by the role of the dataset, in
    the words of the specification. *)
Inductive role : Type := MasterRole | CandidateRole.

Definition spec_country_field (r : role) : string :=
  match r with
  | MasterRole => "Country/territory"
  | CandidateRole => "Country"
  end.

(** ** Preconditions and missing values *)

(** Whether a frame has all the given columns. *)
Definition has_columns (df : DataFrame) (cols : list string) : bool :=
  forallb (fun col => bool_decide (col ∈ columns df)) cols.

(** A missing or empty field value. *)
Definition missing (v : cell) : Prop := v = NaN ∨ v = Str "".

(** The source column and the derived column of each key. *)
Definition key_columns (is_master : bool) : list (string * string) :=
  [ ("Region", "region_norm"); (country_col is_master, "country_norm");
    ("Brand", "brand_norm"); ("Model Name", "model_clean");
    ("CPU Model", "cpu_norm"); ("GPU Model", "gpu_norm");
    ("Resolution", "resolution_norm") ].

(** ** Example frames *)

Definition record
    (region country territory brand model cpu gpu resolution : cell)
  : gmap string cell :=
  list_to_map
    [ ("Region", region); ("Country", country);
      ("Country/territory", territory); ("Brand", brand);
      ("Model Name", model); ("CPU Model", cpu); ("GPU Model", gpu);
      ("Resolution", resolution) ].

Definition ex_columns : list string :=
  [ "Region"; "Country"; "Country/territory"; "Brand"; "Model Name";
    "CPU Model"; "GPU Model"; "Resolution" ].

Definition ex_master_row : gmap string cell :=
  record (Str "EU") (Str "DE") (Str "US") (Str "Acer") (Str "ASPIRE-5")
         (Str "i5-1135G7") NaN (Str "1920x1080").

Definition ex_same_row : gmap string cell :=
  record (Str " eu") (Str "de") NaN (Str "ACER") (Str "Acer Aspire 5")
         (Str "I5-1135G7 ") (Str "") (Str "1920X1080").

Definition ex_variant_row : gmap string cell :=
  record (Str "EU") (Str "DE") NaN (Str "Acer") (Str "Aspire 5")
         (Str "i7-1165G7") NaN (Str "1920x1080").

Definition ex_master : DataFrame :=
  {| columns := ex_columns; rows := [ex_master_row] |}.

Definition ex_candidates : DataFrame :=
  {| columns := ex_columns; rows := [ex_same_row; ex_variant_row] |}.

(** The store at the call: the candidate frame at 0, the master frame at 1. *)
Definition ex_store : list DataFrame := [ex_candidates; ex_master].

(** * Properties *)

(** ** The [str] methods on examples *)

Example strip_example :
  Py.strip (list_ascii_of_string "  a b  ") = list_ascii_of_string "a b".
Proof. reflexivity. Qed.

Example split_example :
  Py.split (list_ascii_of_string " i7  12700h ")
  = [list_ascii_of_string "i7"; list_ascii_of_string "12700h"].
Proof. reflexivity. Qed.

Example re_sub_spaces_example :
  Py.re_sub_spaces space (list_ascii_of_string "a   b  c ")
  = list_ascii_of_string "a b c ".
Proof. reflexivity. Qed.

Example join_example :
  Py.join [space] [list_ascii_of_string "aspire"; list_ascii_of_string "5"]
  = list_ascii_of_string "aspire 5".
Proof. reflexivity. Qed.

Example lower_example :
  Py.lower (list_ascii_of_string "Aspire-5 (GAMING)")
  = list_ascii_of_string "aspire-5 (gaming)".
Proof. reflexivity. Qed.

Example clean_model_name_example :
  clean_model_name (Str "  Acer Aspire 5 A515-56 (Gaming) ")
  = "aspire 5 a515 56".
Proof. vm_compute. reflexivity. Qed.

(** ** Facts on single characters, by enumeration of the 256 code points *)

Ltac each_char c :=
  destruct c as [[] [] [] [] [] [] [] []]; vm_compute; try done; auto.

Lemma space_isspace : Char.isspace space = true.
Proof. reflexivity. Qed.

Lemma unpunct_lower_settled (c : ascii) :
  is_punct (unpunct (Char.lower c)) = false
  ∧ Char.lower (unpunct (Char.lower c)) = unpunct (Char.lower c).
Proof. each_char c. Qed.

Lemma replace_chain (c : ascii) :
  fold_left (fun d p => if Ascii.eqb d p then space else d)
            punctuation_to_remove c = unpunct c.
Proof. each_char c. Qed.

(** ** The punctuation pass is a character map *)

Lemma fold_replace_map (ps : list ascii) (s : list ascii) :
  fold_left (fun cleaned char => Py.replace char space cleaned) ps s
  = map (fun c => fold_left (fun d p => if Ascii.eqb d p then space else d) ps c) s.
Proof.
  revert s. induction ps as [|p ps IH]; intros s; simpl.
  - by rewrite map_id.
  - rewrite IH. unfold Py.replace. by rewrite map_map.
Qed.

Lemma punctuation_pass (s : list ascii) :
  fold_left (fun cleaned char => Py.replace char space cleaned)
            punctuation_to_remove s = map unpunct s.
Proof.
  rewrite fold_replace_map. apply map_ext. intros c. apply replace_chain.
Qed.

(** ** [strip] keeps a part of the text and does not change its words *)

Section Strip.
Variable P : ascii → Prop.

Lemma Forall_lstrip (s : list ascii) : Forall P s → Forall P (Py.lstrip s).
Proof.
  induction 1 as [|c t Hc Ht IH]; simpl; [constructor|].
  destruct (Char.isspace c); auto.
Qed.

Lemma Forall_rstrip (s : list ascii) : Forall P s → Forall P (Py.rstrip s).
Proof.
  induction 1 as [|c t Hc Ht IH]; simpl; [constructor|].
  destruct (Py.rstrip t); [destruct (Char.isspace c)|]; auto.
Qed.

Lemma Forall_strip (s : list ascii) : Forall P s → Forall P (Py.strip s).
Proof. intros. by apply Forall_rstrip, Forall_lstrip. Qed.
End Strip.

Lemma split_lstrip (s : list ascii) : Py.split (Py.lstrip s) = Py.split s.
Proof.
  induction s as [|c t IH]; [done|].
  cbn [Py.lstrip]. destruct (Char.isspace c) eqn:Hc; [|done].
  rewrite IH. simpl. by rewrite Hc.
Qed.

Lemma rstrip_nil_split (s : list ascii) : Py.rstrip s = [] → Py.split s = [].
Proof.
  induction s as [|c t IH]; [done|]. cbn [Py.rstrip].
  destruct (Py.rstrip t) eqn:Ht; [|done].
  destruct (Char.isspace c) eqn:Hc; [|done].
  intros _. simpl. rewrite Hc. by apply IH.
Qed.

Lemma rstrip_nil_head (c : ascii) (t : list ascii) :
  Py.rstrip (c :: t) = [] → Char.isspace c = true.
Proof.
  cbn [Py.rstrip]. destruct (Py.rstrip t); [|done].
  by destruct (Char.isspace c).
Qed.

Lemma rstrip_head (c : ascii) (t : list ascii) :
  Py.rstrip (c :: t) ≠ [] → ∃ t', Py.rstrip (c :: t) = c :: t'.
Proof.
  cbn [Py.rstrip]. destruct (Py.rstrip t); [|eauto].
  destruct (Char.isspace c); [done|eauto].
Qed.

Lemma split_rstrip (s : list ascii) : Py.split (Py.rstrip s) = Py.split s.
Proof.
  induction s as [|c t IH]; [done|].
  cbn [Py.rstrip]. destruct (Py.rstrip t) as [|d t'] eqn:Ht.
  - pose proof (rstrip_nil_split t Ht) as Hs.
    destruct (Char.isspace c) eqn:Hc; simpl; rewrite Hc; [by rewrite Hs|].
    destruct t as [|e t'']; [done|].
    by rewrite (rstrip_nil_head _ _ Ht), Hs.
  - destruct t as [|e t'']; [done|].
    destruct (rstrip_head e t'') as [u Hu]; [by rewrite Ht|].
    rewrite Ht in Hu. injection Hu as -> ->.
    change (Py.split (c :: e :: u) = Py.split (c :: e :: t'')).
    cbn [Py.split] in *. destruct (Char.isspace c); [done|].
    destruct (Char.isspace e); by rewrite IH.
Qed.

Lemma split_strip (s : list ascii) : Py.split (Py.strip s) = Py.split s.
Proof. unfold Py.strip. by rewrite split_rstrip, split_lstrip. Qed.

(** ** Collapsing whitespace does not change the words *)

Lemma split_re_sub_spaces_from (b : bool) (s : list ascii) :
  Py.split (Py.re_sub_spaces_from b space s) = Py.split s.
Proof.
  revert b. induction s as [|c t IH]; intros b; [done|].
  cbn [Py.re_sub_spaces_from]. destruct (Char.isspace c) eqn:Hc.
  - destruct b; [rewrite IH; simpl; by rewrite Hc|].
    change (Py.split (space :: Py.re_sub_spaces_from true space t)
            = Py.split (c :: t)).
    cbn [Py.split]. by rewrite space_isspace, Hc, IH.
  - specialize (IH false). destruct t as [|d t']; [simpl; by rewrite Hc|].
    cbn [Py.re_sub_spaces_from] in *.
    destruct (Char.isspace d) eqn:Hd.
    + cbn [Py.split] in *. rewrite Hc, Hd, space_isspace in *. by rewrite IH.
    + cbn [Py.split] in *. rewrite Hc, Hd in *. by rewrite IH.
Qed.

(** ** Words *)

Lemma split_words (s : list ascii) : Forall word (Py.split s).
Proof.
  induction s as [|c t IH]; [constructor|].
  cbn [Py.split]. destruct (Char.isspace c) eqn:Hc; [done|].
  assert (word [c]) as Hw by (split; [done|by repeat constructor]).
  destruct t as [|d t']; [by repeat constructor|].
  destruct (Char.isspace d); [by constructor|].
  destruct (Py.split (d :: t')) as [|w ws]; [by repeat constructor|].
  inversion IH as [|? ? [_ Hcs] Hws]; subst.
  constructor; [|done]. split; [done|by constructor].
Qed.

Lemma split_chars (P : ascii → Prop) (s : list ascii) :
  Forall P s → Forall (Forall P) (Py.split s).
Proof.
  induction 1 as [|c t Hc Ht IH]; [constructor|].
  cbn [Py.split]. destruct (Char.isspace c); [done|].
  destruct t as [|d t']; [by repeat constructor|].
  destruct (Char.isspace d); [by repeat constructor|].
  destruct (Py.split (d :: t')) as [|w ws]; [by repeat constructor|].
  inversion IH; subst. by repeat constructor.
Qed.

Lemma split_cons_word (c d : ascii) (t : list ascii) :
  Char.isspace c = false → Char.isspace d = false →
  Py.split (c :: d :: t)
  = match Py.split (d :: t) with
    | w :: ws => (c :: w) :: ws
    | [] => [[c]]
    end.
Proof. intros Hc Hd. cbn [Py.split]. by rewrite Hc, Hd. Qed.

Lemma split_word_then_space (w r : list ascii) :
  word w → Py.split (w ++ space :: r) = w :: Py.split r.
Proof.
  intros [Hne Hw]. induction Hw as [|c t Hc Ht IH]; [done|].
  destruct t as [|d t'].
  - simpl. by rewrite Hc.
  - inversion Ht as [|? ? Hd _]; subst.
    cbn [app] in *. rewrite split_cons_word by done. by rewrite IH.
Qed.

Lemma split_word (w : list ascii) : word w → Py.split w = [w].
Proof.
  intros [Hne Hw]. induction Hw as [|c t Hc Ht IH]; [done|].
  destruct t as [|d t']; [simpl; by rewrite Hc|].
  inversion Ht as [|? ? Hd _]; subst.
  rewrite split_cons_word by done. by rewrite IH.
Qed.

Lemma split_join (ws : list (list ascii)) :
  Forall word ws → Py.split (Py.join [space] ws) = ws.
Proof.
  induction 1 as [|w ws Hw Hws IH]; [done|].
  destruct ws as [|w' ws']; [by apply split_word|].
  change (Py.split (w ++ space :: Py.join [space] (w' :: ws')) = w :: w' :: ws').
  by rewrite split_word_then_space, IH.
Qed.

(** ** Texts in canonical form: words joined by single spaces *)

Lemma Forall_join (P : ascii → Prop) (ws : list (list ascii)) :
  P space → Forall (Forall P) ws → Forall P (Py.join [space] ws).
Proof.
  intros Hsp. induction 1 as [|w ws Hw Hws IH]; [constructor|].
  destruct ws as [|w' ws']; [done|].
  change (Forall P (w ++ space :: Py.join [space] (w' :: ws'))).
  apply Forall_app. split; [done|]. by constructor.
Qed.

Lemma join_head (ws : list (list ascii)) :
  Forall word ws →
  match Py.join [space] ws with
  | [] => ws = []
  | c :: _ => Char.isspace c = false
  end.
Proof.
  destruct 1 as [|w ws [Hne Hw] Hws]; [done|].
  destruct Hw as [|c t Hc Ht]; [done|]. by destruct ws.
Qed.

Lemma lstrip_join (ws : list (list ascii)) :
  Forall word ws → Py.lstrip (Py.join [space] ws) = Py.join [space] ws.
Proof.
  intros Hws. pose proof (join_head ws Hws) as H.
  destruct (Py.join [space] ws) as [|c t]; [done|]. simpl. by rewrite H.
Qed.

Lemma rstrip_nonspace (w : list ascii) :
  Forall (fun c => Char.isspace c = false) w → Py.rstrip w = w.
Proof.
  induction 1 as [|c t Hc Ht IH]; [done|].
  cbn [Py.rstrip]. rewrite IH, Hc. by destruct t.
Qed.

Lemma rstrip_app (a b : list ascii) :
  b ≠ [] → Py.rstrip b = b → Py.rstrip (a ++ b) = a ++ b.
Proof.
  intros Hne Hb. induction a as [|c a IH]; [done|].
  cbn [app Py.rstrip]. rewrite IH. destruct (a ++ b) eqn:E; [|done].
  by destruct a, b.
Qed.

Lemma rstrip_join (ws : list (list ascii)) :
  Forall word ws → Py.rstrip (Py.join [space] ws) = Py.join [space] ws.
Proof.
  induction 1 as [|w ws [Hne Hw] Hws IH]; [done|].
  destruct ws as [|w' ws']; [by apply rstrip_nonspace|].
  change (Py.rstrip (w ++ space :: Py.join [space] (w' :: ws'))
          = w ++ space :: Py.join [space] (w' :: ws')).
  rewrite (rstrip_app w); [done|done|].
  change (space :: ?t) with ([space] ++ t). apply rstrip_app; [|done].
  pose proof (join_head _ Hws) as H.
  by destruct (Py.join [space] (w' :: ws')).
Qed.

Lemma strip_join (ws : list (list ascii)) :
  Forall word ws → Py.strip (Py.join [space] ws) = Py.join [space] ws.
Proof. intros. unfold Py.strip. by rewrite lstrip_join, rstrip_join. Qed.

Lemma re_sub_spaces_nonspace (b : bool) (w r : list ascii) :
  word w →
  Py.re_sub_spaces_from b space (w ++ r) = w ++ Py.re_sub_spaces_from false space r.
Proof.
  intros [Hne Hw]. revert b. induction Hw as [|c t Hc Ht IH]; intros b; [done|].
  cbn [app Py.re_sub_spaces_from]. rewrite Hc. f_equal.
  destruct t as [|d t']; [done|]. by apply IH.
Qed.

Lemma re_sub_spaces_join (ws : list (list ascii)) :
  Forall word ws →
  ∀ b, ws ≠ [] ∨ b = false →
  Py.re_sub_spaces_from b space (Py.join [space] ws) = Py.join [space] ws.
Proof.
  induction 1 as [|w ws Hw Hws IH]; intros b Hb; [by destruct Hb as [?| ->]|].
  destruct ws as [|w' ws'].
  - rewrite <-(app_nil_r (Py.join _ _)). by rewrite re_sub_spaces_nonspace.
  - change (Py.join [space] (w :: w' :: ws'))
      with (w ++ space :: Py.join [space] (w' :: ws')).
    rewrite re_sub_spaces_nonspace by done. f_equal.
    cbn [Py.re_sub_spaces_from]. rewrite space_isspace. f_equal.
    apply IH. by left.
Qed.

Lemma re_sub_spaces_length (b : bool) (s : list ascii) :
  (length (Py.re_sub_spaces_from b space s) ≤ length s)%nat.
Proof.
  revert b. induction s as [|c t IH]; intros b; [done|].
  cbn [Py.re_sub_spaces_from].
  destruct (Char.isspace c), b; simpl;
    first [specialize (IH true); lia | specialize (IH false); lia].
Qed.

(** A text that collapsing leaves unchanged has no two whitespace
    characters in a row. *)
Lemma re_sub_spaces_fixed (l1 l2 : list ascii) (c d : ascii) (b : bool) :
  Py.re_sub_spaces_from b space (l1 ++ c :: d :: l2) = l1 ++ c :: d :: l2 →
  Char.isspace c = true → Char.isspace d = true → False.
Proof.
  intros H Hc Hd. revert b H. induction l1 as [|e l1 IH]; intros b H.
  - apply (f_equal length) in H. cbn [app Py.re_sub_spaces_from] in H.
    rewrite Hc, Hd in H.
    pose proof (re_sub_spaces_length true l2).
    destruct b; simpl in H; lia.
  - cbn [app Py.re_sub_spaces_from] in H.
    destruct (Char.isspace e) eqn:He.
    + destruct b.
      * apply (f_equal length) in H.
        pose proof (re_sub_spaces_length true (l1 ++ c :: d :: l2)).
        simpl in H. lia.
      * injection H as _ H. by apply (IH true).
    + injection H as H. by apply (IH false).
Qed.

(** ** The cleaner in closed form *)

Lemma clean_model_name_words (x : cell) :
  clean_model_name x
  = if isna x || eq_str x "" then ""
    else string_of_list_ascii (Py.join [space] (clean_words (str x))).
Proof.
  unfold clean_model_name, clean_words.
  destruct (isna x || eq_str x ""); [done|]. cbv zeta.
  rewrite punctuation_pass, split_strip.
  unfold Py.re_sub_spaces. by rewrite split_re_sub_spaces_from.
Qed.

Lemma clean_model_name_Str (s : string) :
  clean_model_name (Str s)
  = string_of_list_ascii (Py.join [space] (clean_words (list_ascii_of_string s))).
Proof.
  rewrite clean_model_name_words. cbn [isna orb eq_str str].
  destruct (String.eqb_spec s ""); [by subst|done].
Qed.

Lemma clean_words_word (s : list ascii) : Forall word (clean_words s).
Proof.
  unfold clean_words. apply Forall_forall. intros w Hw.
  apply list_elem_of_filter in Hw as [_ Hw].
  pose proof (split_words (map unpunct (Py.strip (Py.lower s)))) as H.
  by apply (proj1 (Forall_forall _ _) H).
Qed.

Lemma clean_words_settled (s : list ascii) :
  Forall (Forall settled) (clean_words s).
Proof.
  unfold clean_words. apply Forall_forall. intros w Hw.
  apply list_elem_of_filter in Hw as [_ Hw].
  assert (Forall settled (map unpunct (Py.strip (Py.lower s)))) as H.
  { apply Forall_map.
    apply (Forall_strip (fun c => settled (unpunct c))).
    unfold Py.lower. apply Forall_map, Forall_forall. intros c _.
    apply unpunct_lower_settled. }
  apply split_chars in H. by apply (proj1 (Forall_forall _ _) H).
Qed.

Lemma clean_words_not_noise (s : list ascii) :
  Forall (fun w => w ∉ noise_terms) (clean_words s).
Proof.
  unfold clean_words. apply Forall_forall. intros w Hw.
  by apply list_elem_of_filter in Hw as [? _].
Qed.

Lemma settled_space : settled space.
Proof. by split. Qed.

(** Words in canonical form are what the cleaner makes of their join. *)
Lemma clean_words_join (ws : list (list ascii)) :
  Forall word ws → Forall (Forall settled) ws →
  Forall (fun w => w ∉ noise_terms) ws →
  clean_words (Py.join [space] ws) = ws.
Proof.
  intros Hw Hs Hn. unfold clean_words.
  pose proof (Forall_join settled ws settled_space Hs) as Hj.
  assert (Py.lower (Py.join [space] ws) = Py.join [space] ws) as ->.
  { unfold Py.lower. rewrite <-(map_id (Py.join [space] ws)) at 2.
    apply map_ext_Forall. eapply Forall_impl; [exact Hj|]. by intros c [_ ?]. }
  rewrite strip_join by done.
  assert (map unpunct (Py.join [space] ws) = Py.join [space] ws) as ->.
  { rewrite <-(map_id (Py.join [space] ws)) at 2.
    apply map_ext_Forall. eapply Forall_impl; [exact Hj|].
    intros c [Hp _]. unfold unpunct. by rewrite Hp. }
  rewrite split_join by done.
  clear Hw Hs Hj. induction Hn as [|w ws Hw Hws IH]; [done|].
  rewrite filter_cons_True by done. by rewrite IH.
Qed.


(** ** [normalize_for_comparison] in closed form *)

Lemma normalize_series (series : list cell) :
  str_lower (str_strip (astype_str (fillna "" series))) = key_cell <$> series.
Proof.
  unfold str_lower, str_strip, astype_str, fillna.
  rewrite <-!list_fmap_compose. apply list_fmap_ext. intros _ v _.
  destruct v as [|s]; [done|]. cbn.
  by rewrite string_of_list_ascii_of_string, list_ascii_of_string_of_list_ascii.
Qed.

Lemma setitem_derived (df : DataFrame) (dst src : string) (f : cell → cell) :
  setitem df dst (f <$> (at_col src <$> rows df)) = Ok (with_column dst src f df).
Proof.
  unfold setitem. rewrite !length_fmap. rewrite decide_True by done.
  unfold with_column, add_column. do 2 f_equal.
  rewrite <-list_fmap_compose, zip_with_fmap_r, zip_with_diag. done.
Qed.

Lemma bind_run {A B : Type} (m : M A) (k : A → M B) (σ : Store) :
  (m ≫= k) σ = match m σ with Ok (a, σ') => k a σ' | Raise e => Raise e end.
Proof. reflexivity. Qed.

Lemma load_run (σ : Store) (ref : nat) (d : DataFrame) :
  σ !! ref = Some d → load ref σ = Ok (d, σ).
Proof. intros H. unfold load. by rewrite H. Qed.

Lemma get_last (σ : Store) (d : DataFrame) (src : string) :
  src ∈ columns d →
  get (length σ) src (σ ++ [d]) = Ok (at_col src <$> rows d, σ ++ [d]).
Proof.
  intros Hsrc. unfold get. rewrite bind_run.
  rewrite (load_run _ _ d) by (by apply list_lookup_middle).
  unfold lift, getitem. by rewrite decide_True.
Qed.

Lemma set_last (σ : Store) (d : DataFrame) (dst src : string) (f : cell → cell) :
  set (length σ) dst (f <$> (at_col src <$> rows d)) (σ ++ [d])
  = Ok (tt, σ ++ [with_column dst src f d]).
Proof.
  unfold set. rewrite list_lookup_middle by done. rewrite setitem_derived.
  rewrite insert_app_r_alt by done. by rewrite Nat.sub_diag.
Qed.

(** One [df[dst] = g(df[src])] step on the object last allocated. *)
Lemma derive_step {A : Type} (σ : Store) (d : DataFrame) (dst src : string)
    (g : list cell → list cell) (f : cell → cell) (k : M A) :
  src ∈ columns d →
  (∀ series, g series = f <$> series) →
  (get (length σ) src ≫= fun series => set (length σ) dst (g series) ≫= fun _ => k)
    (σ ++ [d])
  = k (σ ++ [with_column dst src f d]).
Proof.
  intros Hsrc Hg. rewrite bind_run, get_last by done.
  by rewrite bind_run, Hg, set_last.
Qed.

Lemma columns_with_column (dst src : string) f (d : DataFrame) (c : string) :
  c ∈ columns d → c ∈ columns (with_column dst src f d).
Proof.
  intros. unfold with_column, add_column. simpl.
  case_decide; [done|]. apply elem_of_app. by left.
Qed.

Lemma normalize_for_comparison_run (σ : Store) (df : nat) (d : DataFrame)
    (is_master : bool) :
  σ !! df = Some d →
  required_columns is_master ⊆ columns d →
  normalize_for_comparison df is_master σ
  = Ok (length σ, σ ++ [normalized is_master d]).
Proof.
  intros Hdf Hcols.
  assert (∀ c, c ∈ required_columns is_master → c ∈ columns d) as Hc
    by (intros; by apply Hcols).
  unfold normalize_for_comparison, copy.
  rewrite !bind_run, (load_run _ _ d) by done. unfold alloc at 1.
  change (if is_master then "Country/territory" else "Country")
    with (country_col is_master).
  cbv zeta.
  assert (∀ series, apply clean_model_name series = model_cell <$> series)
    as Hmodel by done.
  repeat first
    [ rewrite (derive_step _ _ _ _ _ key_cell)
        by first [ exact normalize_series
                 | repeat apply columns_with_column; apply Hc;
                   unfold required_columns; set_solver ]
    | rewrite (derive_step _ _ _ _ _ model_cell)
        by first [ exact Hmodel
                 | repeat apply columns_with_column; apply Hc;
                   unfold required_columns; set_solver ] ].
  done.
Qed.

Lemma rows_normalized (b : bool) (d : DataFrame) :
  rows (normalized b d) = norm_row b <$> rows d.
Proof.
  unfold normalized, with_column, norm_row. cbn [rows].
  rewrite <-!list_fmap_compose. done.
Qed.

Lemma add_column_keeps (col c : string) (cols : list string) :
  c ∈ cols → c ∈ add_column col cols.
Proof. unfold add_column. case_decide; set_solver. Qed.

Lemma add_column_has (col : string) (cols : list string) :
  col ∈ add_column col cols.
Proof. unfold add_column. case_decide; set_solver. Qed.

Lemma columns_normalized (b : bool) (d : DataFrame) (c : string) :
  c ∈ derived_columns → c ∈ columns (normalized b d).
Proof.
  intros Hc. unfold normalized, with_column. cbn [columns].
  unfold derived_columns in Hc.
  repeat (apply elem_of_cons in Hc as [->|Hc];
          [repeat first [apply add_column_has | apply add_column_keeps]|]).
  by apply elem_of_nil in Hc.
Qed.

Lemma at_col_put_eq (dst src : string) (f : cell → cell) (row : gmap string cell) :
  at_col dst (put dst src f row) = f (at_col src row).
Proof. unfold at_col, put. by rewrite lookup_insert_eq. Qed.

Lemma at_col_put_ne (c dst src : string) (f : cell → cell)
    (row : gmap string cell) :
  dst ≠ c → at_col c (put dst src f row) = at_col c row.
Proof. intros. unfold at_col, put. by rewrite lookup_insert_ne. Qed.

Ltac at_col_norm b :=
  unfold norm_row;
  repeat first
    [ rewrite at_col_put_eq
    | rewrite at_col_put_ne by (try destruct b; done) ];
  done.

Lemma at_region_norm b row :
  at_col "region_norm" (norm_row b row) = key_cell (at_col "Region" row).
Proof. at_col_norm b. Qed.
Lemma at_country_norm b row :
  at_col "country_norm" (norm_row b row) = key_cell (at_col (country_col b) row).
Proof. at_col_norm b. Qed.
Lemma at_brand_norm b row :
  at_col "brand_norm" (norm_row b row) = key_cell (at_col "Brand" row).
Proof. at_col_norm b. Qed.
Lemma at_model_clean b row :
  at_col "model_clean" (norm_row b row) = model_cell (at_col "Model Name" row).
Proof. at_col_norm b. Qed.
Lemma at_cpu_norm b row :
  at_col "cpu_norm" (norm_row b row) = key_cell (at_col "CPU Model" row).
Proof. at_col_norm b. Qed.
Lemma at_gpu_norm b row :
  at_col "gpu_norm" (norm_row b row) = key_cell (at_col "GPU Model" row).
Proof. at_col_norm b. Qed.
Lemma at_resolution_norm b row :
  at_col "resolution_norm" (norm_row b row) = key_cell (at_col "Resolution" row).
Proof. at_col_norm b. Qed.

(** ** The loop body in closed form *)

Lemma select_fmap (df : DataFrame) (p : gmap string cell → bool) :
  select df (p <$> rows df)
  = {| columns := columns df; rows := filter (fun r => p r = true) (rows df) |}.
Proof.
  unfold select. f_equal. induction (rows df) as [|r l IH]; [done|].
  cbn [fmap list_fmap zip zip_with]. rewrite !filter_cons. cbn [snd].
  destruct (decide (p r = true)); cbn [fmap list_fmap fst]; by rewrite <-IH.
Qed.

Lemma mask_and_fmap {A : Type} (p q : A → bool) (l : list A) :
  mask_and (p <$> l) (q <$> l) = (fun r => p r && q r) <$> l.
Proof.
  unfold mask_and. by rewrite zip_with_fmap_l, zip_with_fmap_r, zip_with_diag.
Qed.

Lemma series_eq_fmap (col : string) (l : list (gmap string cell)) (v : cell) :
  series_eq (at_col col <$> l) v = (fun r => cell_eqb (at_col col r) v) <$> l.
Proof. unfold series_eq. by rewrite <-list_fmap_compose. Qed.

Lemma getitem_has (df : DataFrame) (col : string) :
  col ∈ columns df → getitem df col = Ok (at_col col <$> rows df).
Proof. intros. unfold getitem. by rewrite decide_True. Qed.

Lemma row_getitem_has (df : DataFrame) (row : gmap string cell) (col : string) :
  col ∈ columns df → row_getitem df row col = Ok (at_col col row).
Proof. intros. unfold row_getitem. by rewrite decide_True. Qed.

Lemma result_bind_Ok {A B : Type} (a : A) (k : A → result B) :
  (Ok a ≫= k) = k a.
Proof. reflexivity. Qed.

Lemma filter_nil_length {A : Type} (l : list A) :
  (length l =? 0)%nat = true → l = [].
Proof. destruct l; [done|]. simpl. discriminate. Qed.

Lemma match_row_run (sn mn : DataFrame) (news dups : list nat) (idx : nat)
    (c : gmap string cell) :
  (∀ col, col ∈ derived_columns → col ∈ columns sn) →
  (∀ col, col ∈ derived_columns → col ∈ columns mn) →
  match_row sn mn (news, dups) (idx, c)
  = Ok (if (0 <? length (survivors (rows mn) c))%nat
        then (news, dups ++ [idx]) else (news ++ [idx], dups)).
Proof.
  intros Hs Hm. unfold match_row.
  assert (∀ col l, col ∈ derived_columns →
            getitem {| columns := columns mn; rows := l |} col
            = Ok (at_col col <$> l)) as Hget.
  { intros col l Hcol. apply getitem_has. cbn. by apply Hm. }
  rewrite !getitem_has, !row_getitem_has
    by (first [apply Hs | apply Hm]; unfold derived_columns; set_solver).
  rewrite !result_bind_Ok. cbv zeta.
  rewrite !series_eq_fmap, !mask_and_fmap, select_fmap.
  unfold survivors.
  set (l1 := filter _ (rows mn)).
  assert (l1 = filter (fun m => agree stage1_columns c m = true) (rows mn)) as <-.
  { subst l1. apply list_filter_iff. intros m.
    unfold agree, stage1_columns, stage2_columns, stage3_columns. cbn [forallb].
    by rewrite andb_true_r, ?andb_assoc. }
  cbn [rows].
  destruct (length l1 =? 0)%nat eqn:E1.
  { apply filter_nil_length in E1. by rewrite E1. }
  rewrite ?Hget by (unfold derived_columns; set_solver).
  rewrite ?result_bind_Ok.
  rewrite series_eq_fmap.
  rewrite (select_fmap {| columns := columns mn; rows := l1 |}).
  cbn [rows columns].
  set (l2 := filter _ l1).
  assert (l2 = filter (fun m => agree stage2_columns c m = true) l1) as <-.
  { subst l2. apply list_filter_iff. intros m.
    unfold agree, stage1_columns, stage2_columns, stage3_columns. cbn [forallb].
    by rewrite andb_true_r, ?andb_assoc. }
  destruct (length l2 =? 0)%nat eqn:E2.
  { apply filter_nil_length in E2. by rewrite E2. }
  rewrite ?Hget by (unfold derived_columns; set_solver).
  rewrite ?result_bind_Ok.
  rewrite !series_eq_fmap, !mask_and_fmap.
  rewrite (select_fmap {| columns := columns mn; rows := l2 |}).
  cbn [rows columns].
  set (l3 := filter _ l2).
  assert (l3 = filter (fun m => agree stage3_columns c m = true) l2) as <-.
  { subst l3. apply list_filter_iff. intros m.
    unfold agree, stage1_columns, stage2_columns, stage3_columns. cbn [forallb].
    by rewrite andb_true_r, ?andb_assoc. }
  by destruct (0 <? length l3)%nat.
Qed.

(** ** The loop in closed form *)

Lemma for_each_match_row (sn mn : DataFrame)
    (its : list (nat * gmap string cell)) (news dups : list nat) :
  (∀ col, col ∈ derived_columns → col ∈ columns sn) →
  (∀ col, col ∈ derived_columns → col ∈ columns mn) →
  for_each (match_row sn mn) its (news, dups)
  = Ok (news ++ (fst <$> filter (fun it => duplicate_row (rows mn) (snd it) = false) its),
        dups ++ (fst <$> filter (fun it => duplicate_row (rows mn) (snd it) = true) its)).
Proof.
  intros Hs Hm. revert news dups.
  induction its as [|[idx c] its IH]; intros news dups.
  - cbn. by rewrite !app_nil_r.
  - cbn [for_each]. rewrite match_row_run by done. rewrite result_bind_Ok.
    rewrite !filter_cons. cbn [snd]. fold (duplicate_row (rows mn) c).
    destruct (duplicate_row (rows mn) c) eqn:E.
    + rewrite IH. rewrite decide_False by done. rewrite decide_True by done.
      cbn [fmap list_fmap fst]. by rewrite <-app_assoc.
    + rewrite IH. rewrite decide_True by done. rewrite decide_False by done.
      cbn [fmap list_fmap fst]. by rewrite <-app_assoc.
Qed.

Lemma match_rows_run (sn mn : DataFrame) :
  (∀ col, col ∈ derived_columns → col ∈ columns sn) →
  (∀ col, col ∈ derived_columns → col ∈ columns mn) →
  match_rows sn mn = Ok (labels false sn mn, labels true sn mn).
Proof. intros. unfold match_rows. by rewrite for_each_match_row. Qed.

Lemma fst_iterrows (df : DataFrame) :
  fst <$> iterrows df = seq 0 (length (rows df)).
Proof. unfold iterrows. apply fst_zip. by rewrite length_seq. Qed.

Lemma elem_of_iterrows (df : DataFrame) (i : nat) (r : gmap string cell) :
  (i, r) ∈ iterrows df ↔ rows df !! i = Some r.
Proof.
  unfold iterrows. rewrite list_elem_of_lookup. split.
  - intros [j Hj]. apply lookup_zip_with_Some in Hj as (a & b & E & Ha & Hb).
    injection E as -> ->. apply lookup_seq in Ha as [-> _]. done.
  - intros Hi. exists i. apply lookup_zip_with_Some. exists i, r.
    split_and!; [done| |done]. apply lookup_seq. split; [done|].
    by apply lookup_lt_Some in Hi.
Qed.

Lemma elem_of_labels (b : bool) (sn mn : DataFrame) (i : nat) :
  i ∈ labels b sn mn
  ↔ ∃ r, rows sn !! i = Some r ∧ duplicate_row (rows mn) r = b.
Proof.
  unfold labels. rewrite list_elem_of_fmap. split.
  - intros [[j r] [-> H]]. apply list_elem_of_filter in H as [Hd H].
    apply elem_of_iterrows in H. eauto.
  - intros [r [Hr Hd]]. exists (i, r). split; [done|].
    apply list_elem_of_filter. split; [done|]. by apply elem_of_iterrows.
Qed.

Lemma labels_sublist (b : bool) (sn mn : DataFrame) :
  labels b sn mn `sublist_of` seq 0 (length (rows sn)).
Proof.
  unfold labels. rewrite <-fst_iterrows. apply fmap_sublist, sublist_filter.
Qed.

Lemma labels_partition (sn mn : DataFrame) :
  labels false sn mn ++ labels true sn mn ≡ₚ seq 0 (length (rows sn)).
Proof.
  unfold labels. rewrite <-fst_iterrows, <-fmap_app. apply fmap_Permutation.
  rewrite <-(filter_app_complement
               (fun it => duplicate_row (rows mn) (snd it) = false) (iterrows sn))
    at 3.
  apply Permutation_app; [done|]. apply reflexive_eq, list_filter_iff.
  intros it. by destruct (duplicate_row (rows mn) (snd it)).
Qed.

(** ** [iloc] and the output frames *)

Lemma iloc_run (d : DataFrame) (positions : list nat) :
  Forall (fun i => i < length (rows d))%nat positions →
  iloc d positions
  = Ok {| columns := columns d; rows := rows_at (rows d) positions |}.
Proof.
  intros Hps. unfold iloc.
  assert (∀ acc,
    for_each (fun acc i =>
                match rows d !! i with
                | Some row => Ok (acc ++ [row])
                | None => Raise IndexError
                end) positions acc
    = Ok (acc ++ rows_at (rows d) positions)) as ->; [|done].
  induction Hps as [|i ps Hi Hps IH]; intros acc.
  - cbn. by rewrite app_nil_r.
  - apply lookup_lt_is_Some in Hi as [row Hrow].
    cbn [for_each]. rewrite Hrow, result_bind_Ok, IH.
    unfold rows_at. cbn [omap list_omap]. rewrite Hrow. by rewrite <-app_assoc.
Qed.

Lemma rows_at_Forall2 (l : list (gmap string cell)) (positions : list nat) :
  Forall (fun i => i < length l)%nat positions →
  Forall2 (fun i r => l !! i = Some r) positions (rows_at l positions).
Proof.
  induction 1 as [|i ps Hi Hps IH]; [constructor|].
  apply lookup_lt_is_Some in Hi as [row Hrow].
  unfold rows_at. cbn [omap list_omap]. rewrite Hrow. by constructor.
Qed.

Lemma rows_at_filter {B : Type} (f : gmap string cell → B) (q : B → Prop)
    `{!∀ x, Decision (q x)} (pre l : list (gmap string cell)) :
  rows_at (pre ++ l)
    (fst <$> filter (fun it => q (snd it))
                    (zip (seq (length pre) (length l)) (f <$> l)))
  = filter (fun r => q (f r)) l.
Proof.
  revert pre. induction l as [|r l IH]; intros pre; [done|].
  cbn [length seq fmap list_fmap zip zip_with]. rewrite !filter_cons. cbn [snd].
  specialize (IH (pre ++ [r])). rewrite <-app_assoc, length_app in IH.
  cbn [length app] in IH. rewrite Nat.add_1_r in IH.
  destruct (decide (q (f r))).
  - cbn [fmap list_fmap fst]. unfold rows_at in *. cbn [omap list_omap].
    rewrite list_lookup_middle by done. by rewrite IH.
  - done.
Qed.

Lemma rows_at_labels (b : bool) (ds mn : DataFrame) :
  rows_at (rows ds) (labels b (normalized false ds) mn)
  = filter (fun r => duplicate_row (rows mn) (norm_row false r) = b) (rows ds).
Proof.
  unfold labels, iterrows. rewrite rows_normalized, length_fmap.
  exact (rows_at_filter (norm_row false)
           (fun c => duplicate_row (rows mn) c = b) [] (rows ds)).
Qed.

Lemma labels_in_range (b : bool) (sn mn : DataFrame) :
  Forall (fun i => i < length (rows sn))%nat (labels b sn mn).
Proof.
  apply Forall_forall. intros i Hi.
  apply elem_of_labels in Hi as (r & Hr & _). by apply lookup_lt_Some in Hr.
Qed.

Lemma copy_run (σ : Store) (ref : nat) (d : DataFrame) :
  σ !! ref = Some d → copy ref σ = Ok (length σ, σ ++ [d]).
Proof. intros H. unfold copy. by rewrite bind_run, (load_run _ _ d). Qed.

(** ** [find_matches] in closed form *)

Lemma matcher_run (σ : Store) (scraped_df master_df : nat) (ds dm : DataFrame) :
  σ !! scraped_df = Some ds → σ !! master_df = Some dm →
  required_columns false ⊆ columns ds →
  required_columns false ⊆ columns dm →
  matcher scraped_df master_df σ
  = Ok ((labels false (normalized false ds) (normalized false dm),
         labels true (normalized false ds) (normalized false dm)),
        σ ++ [normalized false ds; normalized false dm]).
Proof.
  intros Hs Hm Hcs Hcm. unfold matcher.
  rewrite bind_run, (normalize_for_comparison_run _ _ ds) by done.
  rewrite bind_run, (normalize_for_comparison_run _ _ dm);
    [|by apply lookup_app_l_Some|done].
  rewrite length_app. cbn [length].
  rewrite bind_run, (load_run _ _ (normalized false ds));
    [|rewrite <-app_assoc; by apply list_lookup_middle].
  rewrite bind_run, (load_run _ _ (normalized false dm));
    [|apply list_lookup_middle; rewrite length_app; cbn; lia].
  unfold lift.
  rewrite match_rows_run by (intros; by apply columns_normalized).
  by rewrite <-app_assoc.
Qed.

Lemma iloc_copy_run (σ : Store) (ref : nat) (d : DataFrame)
    (positions : list nat) :
  σ !! ref = Some d →
  Forall (fun i => i < length (rows d))%nat positions →
  iloc_copy ref positions σ
  = Ok (S (length σ),
        σ ++ [ {| columns := columns d; rows := rows_at (rows d) positions |};
               {| columns := columns d; rows := rows_at (rows d) positions |} ]).
Proof.
  intros Href Hps. unfold iloc_copy.
  rewrite bind_run, (load_run _ _ d) by done.
  rewrite bind_run. unfold lift at 1. rewrite iloc_run by done.
  rewrite bind_run. unfold alloc at 1.
  rewrite (copy_run _ _ {| columns := columns d;
                           rows := rows_at (rows d) positions |})
    by (by apply list_lookup_middle).
  rewrite length_app, <-app_assoc. cbn [length app]. do 3 f_equal. lia.
Qed.

Lemma labels_normalized_range (b : bool) (ds mn : DataFrame) :
  Forall (fun i => i < length (rows ds))%nat (labels b (normalized false ds) mn).
Proof.
  rewrite <-(length_fmap (norm_row false)), <-rows_normalized.
  apply labels_in_range.
Qed.

Lemma find_matches_run (σ : Store) (scraped_df master_df : nat)
    (ds dm : DataFrame) :
  σ !! scraped_df = Some ds → σ !! master_df = Some dm →
  required_columns false ⊆ columns ds →
  required_columns false ⊆ columns dm →
  find_matches scraped_df master_df σ
  = Ok ((length σ + 3, length σ + 5),
        σ ++ [ normalized false ds; normalized false dm;
               output false ds dm; output false ds dm;
               output true ds dm; output true ds dm ]).
Proof.
  intros Hs Hm Hcs Hcm. unfold find_matches.
  rewrite bind_run, (matcher_run _ _ _ ds dm) by done.
  rewrite bind_run, (iloc_copy_run _ _ ds);
    [|by apply lookup_app_l_Some|apply labels_normalized_range].
  rewrite bind_run, (iloc_copy_run _ _ ds);
    [|by do 2 apply lookup_app_l_Some|apply labels_normalized_range].
  unfold mret, M_ret, output.
  rewrite !length_app. cbn [length]. rewrite <-!app_assoc. cbn [app].
  do 3 f_equal; lia.
Qed.

(** ** The filters of the loop are the three stages on the keys *)

Lemma cell_eqb_Str (s t : string) : cell_eqb (Str s) (Str t) = true ↔ s = t.
Proof. cbn. apply String.eqb_eq. Qed.

Lemma agree_stage1 (C M : gmap string cell) :
  agree stage1_columns (norm_row false C) (norm_row false M) = true
  ↔ agree_coarse C M.
Proof.
  unfold agree, stage1_columns, agree_coarse. cbn [forallb].
  rewrite !at_region_norm, !at_country_norm, !at_brand_norm.
  unfold key_cell. rewrite !andb_true_iff, !cell_eqb_Str.
  unfold region_key, country_key, brand_key, country_col. tauto.
Qed.

Lemma agree_stage2 (C M : gmap string cell) :
  agree stage2_columns (norm_row false C) (norm_row false M) = true
  ↔ agree_model C M.
Proof.
  unfold agree, stage2_columns, agree_model. cbn [forallb].
  rewrite !at_model_clean. unfold model_cell.
  rewrite !andb_true_iff, !cell_eqb_Str. unfold model_key. tauto.
Qed.

Lemma agree_stage3 (C M : gmap string cell) :
  agree stage3_columns (norm_row false C) (norm_row false M) = true
  ↔ agree_spec C M.
Proof.
  unfold agree, stage3_columns, agree_spec. cbn [forallb].
  rewrite !at_cpu_norm, !at_gpu_norm, !at_resolution_norm.
  unfold key_cell. rewrite !andb_true_iff, !cell_eqb_Str.
  unfold cpu_key, gpu_key, resolution_key. tauto.
Qed.

Lemma filter_fmap_iff {A B : Type} (f : A → B) (P : B → Prop) (Q : A → Prop)
    `{!∀ x, Decision (P x)} `{!∀ x, Decision (Q x)} (l : list A) :
  (∀ x, P (f x) ↔ Q x) → filter P (f <$> l) = f <$> filter Q l.
Proof.
  intros Hiff. induction l as [|x l IH]; [done|].
  cbn [fmap list_fmap]. rewrite !filter_cons.
  destruct (decide (P (f x))) as [HP|HP], (decide (Q x)) as [HQ|HQ];
    cbn [fmap list_fmap]; rewrite ?IH; try done.
  - by apply Hiff in HP.
  - by apply Hiff in HQ.
Qed.

Lemma survivors_normalized (master : list (gmap string cell))
    (C : gmap string cell) :
  survivors (norm_row false <$> master) (norm_row false C)
  = norm_row false <$> stage3 master C.
Proof.
  unfold survivors, stage3, stage2, stage1.
  rewrite (filter_fmap_iff _ _ (agree_coarse C)) by apply agree_stage1.
  rewrite (filter_fmap_iff _ _ (agree_model C)) by apply agree_stage2.
  by rewrite (filter_fmap_iff _ _ (agree_spec C)) by apply agree_stage3.
Qed.

Lemma duplicate_row_normalized (dm : DataFrame) (C : gmap string cell) :
  duplicate_row (rows (normalized false dm)) (norm_row false C) = true
  ↔ stage3 (rows dm) C ≠ [].
Proof.
  unfold duplicate_row. rewrite rows_normalized, survivors_normalized.
  rewrite length_fmap, Nat.ltb_lt. destruct (stage3 (rows dm) C); cbn; [|split; [done|lia]].
  split; [lia|done].
Qed.

Lemma duplicate_row_decide (dm : DataFrame) (C : gmap string cell) :
  duplicate_row (rows (normalized false dm)) (norm_row false C)
  = bool_decide (stage3 (rows dm) C ≠ []).
Proof.
  destruct (duplicate_row _ _) eqn:E; symmetry.
  - apply bool_decide_eq_true. by apply duplicate_row_normalized.
  - apply bool_decide_eq_false. intros H.
    apply duplicate_row_normalized in H. congruence.
Qed.

(** The label lists in terms of the candidate records. *)
Lemma elem_of_labels_normalized (b : bool) (ds dm : DataFrame) (i : nat) :
  i ∈ labels b (normalized false ds) (normalized false dm)
  ↔ ∃ C, rows ds !! i = Some C
         ∧ bool_decide (stage3 (rows dm) C ≠ []) = b.
Proof.
  rewrite elem_of_labels, rows_normalized. split.
  - intros (r & Hr & Hd). apply list_lookup_fmap_Some in Hr as (C & -> & HC).
    exists C. by rewrite <-duplicate_row_decide.
  - intros (C & HC & Hd). exists (norm_row false C). split.
    + by rewrite list_lookup_fmap, HC.
    + by rewrite duplicate_row_decide.
Qed.

(** ** A whitespace character separates the words on its two sides *)

Lemma split_head_word (d : ascii) (t : list ascii) :
  Char.isspace d = false → ∃ w ws, Py.split (d :: t) = w :: ws.
Proof.
  intros Hd. cbn [Py.split]. rewrite Hd. destruct t as [|e t]; [eauto|].
  destruct (Char.isspace e); [eauto|]. destruct (Py.split (e :: t)); eauto.
Qed.

Lemma split_app_space (a b : list ascii) (c : ascii) :
  Char.isspace c = true → Py.split (a ++ c :: b) = Py.split a ++ Py.split b.
Proof.
  intros Hc. induction a as [|x a IH].
  - cbn [app Py.split]. by rewrite Hc.
  - destruct (Char.isspace x) eqn:Hx.
    { cbn [app Py.split] in *. by rewrite Hx. }
    destruct a as [|d a].
    { cbn [app Py.split] in *. by rewrite Hx, Hc. }
    destruct (Char.isspace d) eqn:Hd.
    { cbn [app Py.split] in *. rewrite Hx, Hd in *. by rewrite IH. }
    cbn [app] in *. rewrite !split_cons_word by done. rewrite IH.
    destruct (split_head_word d a Hd) as (w & ws & ->). done.
Qed.

(** * The claims on the model-name cleaner *)

(** C4.  The model-name cleaner is idempotent: cleaning a cleaned model
    name gives the same text, for every input, a missing value included. *)
Theorem clean_model_name_idempotent (x : cell) :
  clean_model_name (Str (clean_model_name x)) = clean_model_name x.
Proof.
  rewrite clean_model_name_Str.
  rewrite (clean_model_name_words x).
  destruct (isna x || eq_str x ""); [done|].
  rewrite list_ascii_of_string_of_list_ascii.
  rewrite clean_words_join;
    auto using clean_words_word, clean_words_settled, clean_words_not_noise.
Qed.

(** C5.  The punctuation step replaces every occurrence of a character of
    [.-_/()[]{}:] by one space and leaves every other character in place,
    so that the text keeps its length and no two tokens are merged; the
    cleaned ["i7-12700H"] is ["i7 12700h"], not ["i712700h"]. *)
Theorem punctuation_becomes_space :
  (∀ cleaned : list ascii,
     fold_left (fun cleaned char => Py.replace char space cleaned)
               punctuation_to_remove cleaned
     = map (fun c => if bool_decide (c ∈ punctuation_to_remove)
                     then space else c) cleaned)
  ∧ (∀ (a b : list ascii) (p : ascii),
       p ∈ punctuation_to_remove →
       Py.split (fold_left (fun cleaned char => Py.replace char space cleaned)
                           punctuation_to_remove (a ++ p :: b))
       = Py.split (fold_left (fun cleaned char => Py.replace char space cleaned)
                             punctuation_to_remove a)
         ++ Py.split (fold_left (fun cleaned char => Py.replace char space cleaned)
                                punctuation_to_remove b))
  ∧ clean_model_name (Str "i7-12700H") = "i7 12700h"
  ∧ clean_model_name (Str "i7-12700H") ≠ "i712700h".
Proof.
  split_and!.
  - apply punctuation_pass.
  - intros a b p Hp. rewrite !punctuation_pass, map_app. cbn [map].
    assert (unpunct p = space) as ->.
    { unfold unpunct, is_punct. by rewrite bool_decide_eq_true_2. }
    by apply split_app_space.
  - vm_compute. reflexivity.
  - vm_compute. discriminate.
Qed.

Lemma punctuation_becomes_space_witness :
  "-"%char ∈ punctuation_to_remove
  ∧ Py.split (fold_left (fun cleaned char => Py.replace char space cleaned)
                        punctuation_to_remove
                        (list_ascii_of_string "i7-12700h"))
    = [list_ascii_of_string "i7"; list_ascii_of_string "12700h"].
Proof.
  assert ("-"%char ∈ punctuation_to_remove) as Hp
    by (apply list_elem_of_In; vm_compute; tauto).
  split; [exact Hp|].
  exact (proj1 (proj2 punctuation_becomes_space)
           (list_ascii_of_string "i7") (list_ascii_of_string "12700h")
           "-"%char Hp).
Defined.

(** ** The cleaned model name is a join of canonical words *)

Lemma cleaned_is_join (x : cell) :
  ∃ ws, list_ascii_of_string (clean_model_name x) = Py.join [space] ws
        ∧ Forall word ws ∧ Forall (Forall settled) ws
        ∧ Forall (fun w => w ∉ noise_terms) ws.
Proof.
  rewrite clean_model_name_words. destruct (isna x || eq_str x "").
  - exists []. by repeat constructor.
  - exists (clean_words (str x)). rewrite list_ascii_of_string_of_list_ascii.
    auto using clean_words_word, clean_words_settled, clean_words_not_noise.
Qed.

Lemma rstrip_snoc_space (t : list ascii) (c : ascii) :
  Char.isspace c = true → Py.rstrip (t ++ [c]) = Py.rstrip t.
Proof.
  intros Hc. induction t as [|x t IH]; [simpl; by rewrite Hc|].
  cbn [app Py.rstrip]. by rewrite IH.
Qed.

Lemma rstrip_length (s : list ascii) : (length (Py.rstrip s) ≤ length s)%nat.
Proof.
  induction s as [|c t IH]; [done|]. cbn [Py.rstrip].
  destruct (Py.rstrip t); [destruct (Char.isspace c)|]; simpl in *; lia.
Qed.

Lemma not_elem_of_compute {A : Type} `{EqDecision A} (x : A) (l : list A) :
  bool_decide (x ∈ l) = false → x ∉ l.
Proof. apply bool_decide_eq_false. Qed.

(** C6.  The cleaner drops the tokens that are in the noise vocabulary and
    no others: the words of the cleaned name are, in order, the words of
    the lowered text with punctuation replaced that are not noise terms.
    The sub-brand words are not noise terms, and the cleaned
    ["Acer Aspire 5 A515-56"] has the words aspire, 5, a515 and 56 but not
    acer. *)
Theorem noise_terms_dropped_only :
  (∀ s : string,
     Py.split (list_ascii_of_string (clean_model_name (Str s)))
     = filter (fun w => w ∉ noise_terms)
         (Py.split
            (Py.strip
               (Py.re_sub_spaces space
                  (fold_left (fun cleaned char => Py.replace char space cleaned)
                     punctuation_to_remove
                     (Py.strip (Py.lower (list_ascii_of_string s))))))))
  ∧ Forall (fun w => list_ascii_of_string w ∉ noise_terms)
           ["aspire"; "nitro"; "swift"; "vostro"; "latitude"; "inspiron"]
  ∧ clean_model_name (Str "Acer Aspire 5 A515-56") = "aspire 5 a515 56"
  ∧ Py.split (list_ascii_of_string
                (clean_model_name (Str "Acer Aspire 5 A515-56")))
    = list_ascii_of_string <$> ["aspire"; "5"; "a515"; "56"]
  ∧ list_ascii_of_string "acer"
    ∉ Py.split (list_ascii_of_string
                  (clean_model_name (Str "Acer Aspire 5 A515-56"))).
Proof.
  split_and!.
  - intros s. rewrite clean_model_name_Str, list_ascii_of_string_of_list_ascii.
    rewrite split_join by apply clean_words_word.
    unfold clean_words, Py.re_sub_spaces.
    by rewrite split_strip, split_re_sub_spaces_from, punctuation_pass.
  - repeat (apply List.Forall_cons;
            [apply not_elem_of_compute; vm_compute; reflexivity|]).
    apply List.Forall_nil.
  - vm_compute. reflexivity.
  - vm_compute. reflexivity.
  - apply not_elem_of_compute. vm_compute. reflexivity.
Qed.

(** C10.  The cleaned model name is in canonical form, for every input:
    it has no character of the punctuation set, none of its words is a
    noise term, it neither starts nor ends with whitespace, it has no two
    spaces in a row, and it is its own words joined by single spaces. *)
Theorem clean_model_name_canonical_form (x : cell) :
  let y := list_ascii_of_string (clean_model_name x) in
  Forall (fun c => c ∉ punctuation_to_remove) y
  ∧ Forall (fun w => w ∉ noise_terms) (Py.split y)
  ∧ (∀ c t, y = c :: t → Char.isspace c = false)
  ∧ (∀ t c, y = t ++ [c] → Char.isspace c = false)
  ∧ (∀ l1 l2, y ≠ l1 ++ space :: space :: l2)
  ∧ y = Py.join [space] (Py.split y).
Proof.
  intros y. subst y.
  destruct (cleaned_is_join x) as (ws & -> & Hw & Hs & Hn).
  split_and!.
  - apply Forall_join.
    + apply not_elem_of_compute. vm_compute. reflexivity.
    + eapply Forall_impl; [exact Hs|]. intros w Hws.
      eapply Forall_impl; [exact Hws|]. intros c [Hp _].
      by apply not_elem_of_compute.
  - by rewrite split_join.
  - intros c t E. pose proof (join_head ws Hw) as H. by rewrite E in H.
  - intros t c E. destruct (Char.isspace c) eqn:Hc; [|done]. exfalso.
    pose proof (rstrip_join ws Hw) as H. rewrite E in H.
    rewrite rstrip_snoc_space in H by done.
    apply (f_equal length) in H. pose proof (rstrip_length t).
    rewrite length_app in H. simpl in H. lia.
  - intros l1 l2 E.
    pose proof (re_sub_spaces_join ws Hw false (or_intror eq_refl)) as H.
    rewrite E in H. by apply re_sub_spaces_fixed in H.
  - by rewrite split_join.
Qed.

(** * The claims on the matcher *)

Lemma has_columns_subseteq (df : DataFrame) (cols : list string) :
  has_columns df cols = true → cols ⊆ columns df.
Proof.
  unfold has_columns. rewrite forallb_forall. intros H c Hc.
  apply list_elem_of_In, H in Hc. by apply bool_decide_eq_true in Hc.
Qed.

(** ** The candidate records by class *)

Lemma stage3_nonempty (master : list (gmap string cell)) (C : gmap string cell) :
  stage3 master C ≠ []
  ↔ ∃ M, M ∈ master ∧ agree_coarse C M ∧ agree_model C M ∧ agree_spec C M.
Proof.
  unfold stage3, stage2, stage1. split.
  - intros H. destruct (filter _ _) as [|M l] eqn:E; [done|].
    assert (M ∈ M :: l) as HM by left. rewrite <-E in HM.
    repeat apply list_elem_of_filter in HM as [? HM]. eauto.
  - intros (M & HM & H1 & H2 & H3) E.
    assert (M ∈ filter (agree_spec C)
                  (filter (agree_model C) (filter (agree_coarse C) master))) as H
      by (by repeat (apply list_elem_of_filter; split)).
    rewrite E in H. by apply elem_of_nil in H.
Qed.

Lemma duplicate_label (ds dm : DataFrame) (i : nat) (C : gmap string cell) :
  rows ds !! i = Some C →
  i ∈ labels true (normalized false ds) (normalized false dm)
  ↔ stage3 (rows dm) C ≠ [].
Proof.
  intros HC. rewrite elem_of_labels_normalized. split.
  - intros (C' & HC' & H). rewrite HC in HC'. injection HC' as <-.
    by apply bool_decide_eq_true in H.
  - intros H. exists C. split; [done|]. by apply bool_decide_eq_true.
Qed.

Lemma new_label (ds dm : DataFrame) (i : nat) (C : gmap string cell) :
  rows ds !! i = Some C →
  i ∈ labels false (normalized false ds) (normalized false dm)
  ↔ stage3 (rows dm) C = [].
Proof.
  intros HC. rewrite elem_of_labels_normalized. split.
  - intros (C' & HC' & H). rewrite HC in HC'. injection HC' as <-.
    apply bool_decide_eq_false in H.
    destruct (stage3 (rows dm) C); [done|]. by destruct H.
  - intros H. exists C. split; [done|]. apply bool_decide_eq_false.
    rewrite H. by intros [].
Qed.

Lemma nil_iff_not_nonempty {A : Type} (l : list A) : l = [] ↔ ¬ l ≠ [].
Proof.
  destruct l as [|x l].
  - split; [intros _ H; by apply H | done].
  - split; [done | intros H; by destruct H].
Qed.

Lemma lookup_past (σ l : list DataFrame) (k : nat) :
  (σ ++ l) !! (length σ + k)%nat = l !! k.
Proof. rewrite lookup_app_r by lia. f_equal. lia. Qed.

(** C2.  For every candidate record C at position i and every master
    dataset, the matcher puts i on the NEW list if no master record agrees
    with C on the region, country and brand keys; on the NEW list too if
    none of those agrees on the model key; and otherwise on the DUPLICATE
    list exactly when a master record agrees on all of these and on the
    CPU, GPU and resolution keys, and on the NEW list if none does.  The
    two output frames of [find_matches] hold the candidate records at the
    positions of the two lists. *)
Theorem three_stage_classification (σ : Store) (scraped_df master_df : nat)
    (ds dm : DataFrame) :
  σ !! scraped_df = Some ds → σ !! master_df = Some dm →
  has_columns ds (required_columns false) = true →
  has_columns dm (required_columns false) = true →
  ∃ news dups σ1 out σ2,
    matcher scraped_df master_df σ = Ok ((news, dups), σ1)
    ∧ find_matches scraped_df master_df σ = Ok (out, σ2)
    ∧ σ2 !! fst out
      = Some {| columns := columns ds; rows := rows_at (rows ds) news |}
    ∧ σ2 !! snd out
      = Some {| columns := columns ds; rows := rows_at (rows ds) dups |}
    ∧ ∀ i C, rows ds !! i = Some C →
        (i ∈ news ↔ i ∉ dups)
        ∧ ((∀ M, M ∈ rows dm → ¬ agree_coarse C M) → i ∈ news)
        ∧ ((∀ M, M ∈ rows dm → agree_coarse C M → ¬ agree_model C M) →
           i ∈ news)
        ∧ (i ∈ dups
           ↔ ∃ M, M ∈ rows dm ∧ agree_coarse C M ∧ agree_model C M
                  ∧ agree_spec C M)
        ∧ ((∀ M, M ∈ rows dm → agree_coarse C M → agree_model C M →
              ¬ agree_spec C M) → i ∈ news).
Proof.
  intros Hs Hm Hcs%has_columns_subseteq Hcm%has_columns_subseteq.
  eexists _, _, _, _, _. split; [by apply (matcher_run _ _ _ ds dm)|].
  split; [by apply (find_matches_run _ _ _ ds dm)|].
  cbn [fst snd]. rewrite !lookup_past. split_and!; [done|done|].
  - intros i C HC.
    rewrite (new_label ds dm i C HC), (duplicate_label ds dm i C HC).
    rewrite stage3_nonempty.
    rewrite nil_iff_not_nonempty, stage3_nonempty. split_and!.
    + done.
    + intros H (M & HM & H1 & _). by apply (H M).
    + intros H (M & HM & H1 & H2 & _). by apply (H M).
    + done.
    + intros H (M & HM & H1 & H2 & H3). by apply (H M).
Qed.

Lemma three_stage_classification_witness :
  ex_store !! 0%nat = Some ex_candidates
  ∧ ex_store !! 1%nat = Some ex_master
  ∧ has_columns ex_candidates (required_columns false) = true
  ∧ has_columns ex_master (required_columns false) = true
  ∧ ∃ news dups σ1,
      matcher 0 1 ex_store = Ok ((news, dups), σ1)
      ∧ (0%nat ∈ news ↔ 0%nat ∉ dups).
Proof.
  split_and!; [reflexivity..|].
  destruct (three_stage_classification ex_store 0 1 ex_candidates ex_master
              eq_refl eq_refl eq_refl eq_refl)
    as (news & dups & σ1 & out & σ2 & Hm & _ & _ & _ & H).
  exists news, dups, σ1. split; [exact Hm|].
  exact (proj1 (H 0%nat ex_same_row eq_refl)).
Defined.

(** C3.  The two index lists of the matcher partition the positions of the
    candidate dataset: their lengths add up to the number of candidate
    rows, no position is on both, every position is on one of them, and
    both are in increasing order.  The two output frames of
    [find_matches] have the columns of the candidate frame and hold, in
    that order, the candidate records as they were given, so that each
    candidate record is in exactly one output. *)
Theorem outputs_partition_candidates (σ : Store) (scraped_df master_df : nat)
    (ds dm : DataFrame) :
  σ !! scraped_df = Some ds → σ !! master_df = Some dm →
  has_columns ds (required_columns false) = true →
  has_columns dm (required_columns false) = true →
  ∃ news dups σ1 out σ2 new_rows duplicate_rows,
    matcher scraped_df master_df σ = Ok ((news, dups), σ1)
    ∧ find_matches scraped_df master_df σ = Ok (out, σ2)
    ∧ σ2 !! fst out = Some new_rows
    ∧ σ2 !! snd out = Some duplicate_rows
    ∧ (length (rows new_rows) + length (rows duplicate_rows)
       = length (rows ds))%nat
    ∧ (length news + length dups = length (rows ds))%nat
    ∧ (∀ i, i ∈ news → i ∉ dups)
    ∧ (∀ i, (i < length (rows ds))%nat ↔ i ∈ news ∨ i ∈ dups)
    ∧ NoDup news ∧ NoDup dups
    ∧ news ++ dups ≡ₚ seq 0 (length (rows ds))
    ∧ news `sublist_of` seq 0 (length (rows ds))
    ∧ dups `sublist_of` seq 0 (length (rows ds))
    ∧ columns new_rows = columns ds
    ∧ columns duplicate_rows = columns ds
    ∧ Forall2 (fun i row => rows ds !! i = Some row) news (rows new_rows)
    ∧ Forall2 (fun i row => rows ds !! i = Some row) dups
              (rows duplicate_rows)
    ∧ rows new_rows = filter (fun C => stage3 (rows dm) C = []) (rows ds)
    ∧ rows duplicate_rows
      = filter (fun C => stage3 (rows dm) C ≠ []) (rows ds).
Proof.
  intros Hs Hm Hcs%has_columns_subseteq Hcm%has_columns_subseteq.
  set (sn := normalized false ds). set (mn := normalized false dm).
  exists (labels false sn mn), (labels true sn mn).
  eexists _, _, _, (output false ds dm), (output true ds dm).
  split; [by apply (matcher_run _ _ _ ds dm)|].
  split; [by apply (find_matches_run _ _ _ ds dm)|].
  cbn [fst snd]. rewrite !lookup_past.
  assert (length (rows sn) = length (rows ds)) as Hlen
    by (subst sn; by rewrite rows_normalized, length_fmap).
  pose proof (labels_partition sn mn) as Hperm. rewrite Hlen in Hperm.
  pose proof (labels_sublist false sn mn) as Hsub0. rewrite Hlen in Hsub0.
  pose proof (labels_sublist true sn mn) as Hsub1. rewrite Hlen in Hsub1.
  assert (NoDup (labels false sn mn ++ labels true sn mn)) as Hnd
    by (rewrite Hperm; apply NoDup_seq).
  apply NoDup_app in Hnd as (Hnd0 & Hdisj & Hnd1).
  pose proof (rows_at_Forall2 (rows ds) _ (labels_normalized_range false ds mn))
    as Hrows0.
  pose proof (rows_at_Forall2 (rows ds) _ (labels_normalized_range true ds mn))
    as Hrows1.
  fold sn in Hrows0, Hrows1.
  assert (length (labels false sn mn) + length (labels true sn mn)
          = length (rows ds))%nat as Hsum
    by (rewrite <-length_app, Hperm; apply length_seq).
  split_and!; try done.
  - unfold output. cbn [rows]. fold sn mn.
    apply Forall2_length in Hrows0, Hrows1. lia.
  - intros i. rewrite <-elem_of_app, Hperm, elem_of_seq. lia.
  - unfold output. cbn [rows]. rewrite rows_at_labels.
    apply list_filter_iff. intros C. rewrite duplicate_row_decide.
    rewrite bool_decide_eq_false. symmetry. apply nil_iff_not_nonempty.
  - unfold output. cbn [rows]. rewrite rows_at_labels.
    apply list_filter_iff. intros C. rewrite duplicate_row_decide.
    apply bool_decide_eq_true.
Qed.

Lemma outputs_partition_candidates_witness :
  ex_store !! 0%nat = Some ex_candidates
  ∧ ex_store !! 1%nat = Some ex_master
  ∧ has_columns ex_candidates (required_columns false) = true
  ∧ has_columns ex_master (required_columns false) = true
  ∧ ∃ news dups σ1,
      matcher 0 1 ex_store = Ok ((news, dups), σ1)
      ∧ (length news + length dups = 2)%nat.
Proof.
  split_and!; [reflexivity..|].
  destruct (outputs_partition_candidates ex_store 0 1 ex_candidates ex_master
              eq_refl eq_refl eq_refl eq_refl)
    as (news & dups & σ1 & out & σ2 & nr & dr & Hm & _ & _ & _ & _ & Hlen & _).
  exists news, dups, σ1. split; [exact Hm|exact Hlen].
Defined.

(** C7.  A candidate record that agrees with some master record on the
    region, country, brand and model keys, while every such master record
    has another CPU key, is put on the NEW list and not on the DUPLICATE
    list. *)
Theorem variant_is_new (σ : Store) (scraped_df master_df : nat)
    (ds dm : DataFrame) (i : nat) (C : gmap string cell) :
  σ !! scraped_df = Some ds → σ !! master_df = Some dm →
  has_columns ds (required_columns false) = true →
  has_columns dm (required_columns false) = true →
  rows ds !! i = Some C →
  (∃ M, M ∈ rows dm ∧ agree_coarse C M ∧ agree_model C M) →
  (∀ M, M ∈ rows dm → agree_coarse C M → agree_model C M →
        cpu_key M ≠ cpu_key C) →
  ∃ news dups σ1,
    matcher scraped_df master_df σ = Ok ((news, dups), σ1)
    ∧ i ∈ news ∧ i ∉ dups.
Proof.
  intros Hs Hm Hcs%has_columns_subseteq Hcm%has_columns_subseteq HC _ Hcpu.
  eexists _, _, _. split; [by apply (matcher_run _ _ _ ds dm)|].
  assert (¬ ∃ M, M ∈ rows dm ∧ agree_coarse C M ∧ agree_model C M
                 ∧ agree_spec C M) as H.
  { intros (M & HM & H1 & H2 & H3 & _). by apply (Hcpu M). }
  split.
  - apply (new_label ds dm i C HC), nil_iff_not_nonempty.
    by rewrite stage3_nonempty.
  - by rewrite (duplicate_label ds dm i C HC), stage3_nonempty.
Qed.

(** The stage-three relation on the example records. *)
Lemma ex_variant_agrees :
  agree_coarse ex_variant_row ex_master_row
  ∧ agree_model ex_variant_row ex_master_row
  ∧ cpu_key ex_master_row ≠ cpu_key ex_variant_row.
Proof. vm_compute. split_and!; [reflexivity..|discriminate]. Qed.

Lemma variant_is_new_witness :
  ex_store !! 0%nat = Some ex_candidates
  ∧ ex_store !! 1%nat = Some ex_master
  ∧ has_columns ex_candidates (required_columns false) = true
  ∧ has_columns ex_master (required_columns false) = true
  ∧ rows ex_candidates !! 1%nat = Some ex_variant_row
  ∧ ∃ news dups σ1,
      matcher 0 1 ex_store = Ok ((news, dups), σ1)
      ∧ 1%nat ∈ news ∧ 1%nat ∉ dups.
Proof.
  split_and!; [reflexivity..|].
  apply (variant_is_new ex_store 0 1 ex_candidates ex_master 1 ex_variant_row
           eq_refl eq_refl eq_refl eq_refl eq_refl).
  - exists ex_master_row. split; [left|].
    split; [exact (proj1 ex_variant_agrees)
           |exact (proj1 (proj2 ex_variant_agrees))].
  - intros M HM _ _. apply list_elem_of_singleton in HM as ->.
    exact (proj2 (proj2 ex_variant_agrees)).
Defined.

(** C9.  Normalization works on a copy and the matcher changes no object
    that existed when it was called.  [normalize_for_comparison] returns a
    new object and leaves every older object, the frame it was given
    among them, as it was; in the store at the return of [find_matches]
    the candidate frame and the master frame, like every older object,
    are what they were, and the two outputs are new objects. *)
Theorem inputs_not_mutated :
  (∀ (σ : Store) (df : nat) (d : DataFrame) (is_master : bool),
     σ !! df = Some d →
     has_columns d (required_columns is_master) = true →
     ∃ df' σ',
       normalize_for_comparison df is_master σ = Ok (df', σ')
       ∧ (length σ ≤ df')%nat
       ∧ σ' !! df = Some d
       ∧ (∀ ref old, σ !! ref = Some old → σ' !! ref = Some old)
       ∧ ∃ d', σ' !! df' = Some d'
               ∧ ∀ col, col ∈ derived_columns → col ∈ columns d')
  ∧ (∀ (σ : Store) (scraped_df master_df : nat) (ds dm : DataFrame),
       σ !! scraped_df = Some ds → σ !! master_df = Some dm →
       has_columns ds (required_columns false) = true →
       has_columns dm (required_columns false) = true →
       ∃ out σ',
         find_matches scraped_df master_df σ = Ok (out, σ')
         ∧ σ' !! scraped_df = Some ds
         ∧ σ' !! master_df = Some dm
         ∧ (∀ ref old, σ !! ref = Some old → σ' !! ref = Some old)
         ∧ (length σ ≤ fst out)%nat ∧ (length σ ≤ snd out)%nat).
Proof.
  split.
  - intros σ df d b Hdf Hc%has_columns_subseteq.
    eexists _, _. split; [by apply (normalize_for_comparison_run _ _ d)|].
    split_and!; [done|by apply lookup_app_l_Some| |].
    + intros ref old H. by apply lookup_app_l_Some.
    + exists (normalized b d). split; [by apply list_lookup_middle|].
      apply columns_normalized.
  - intros σ s m ds dm Hs Hm Hcs%has_columns_subseteq Hcm%has_columns_subseteq.
    eexists _, _. split; [by apply (find_matches_run _ _ _ ds dm)|].
    cbn [fst snd]. split_and!; try lia; try by apply lookup_app_l_Some.
Qed.

Lemma inputs_not_mutated_witness :
  ex_store !! 0%nat = Some ex_candidates
  ∧ ex_store !! 1%nat = Some ex_master
  ∧ has_columns ex_candidates (required_columns false) = true
  ∧ has_columns ex_master (required_columns false) = true
  ∧ ∃ out σ',
      find_matches 0 1 ex_store = Ok (out, σ')
      ∧ σ' !! 0%nat = Some ex_candidates
      ∧ σ' !! 1%nat = Some ex_master.
Proof.
  split_and!; [reflexivity..|].
  destruct (proj2 inputs_not_mutated ex_store 0 1 ex_candidates ex_master
              eq_refl eq_refl eq_refl eq_refl)
    as (out & σ' & Hrun & H0 & H1 & _).
  exists out, σ'. split_and!; [exact Hrun|exact H0|exact H1].
Defined.

Lemma key_cell_missing (v : cell) : missing v → key_cell v = Str "".
Proof. by intros [->| ->]. Qed.

Lemma model_cell_missing (v : cell) : missing v → model_cell v = Str "".
Proof. by intros [->| ->]. Qed.

Lemma norm_row_missing (b : bool) (row : gmap string cell) (src dst : string) :
  (src, dst) ∈ key_columns b → missing (at_col src row) →
  at_col dst (norm_row b row) = Str "".
Proof.
  intros Hin Hmiss. unfold key_columns in Hin.
  repeat (apply elem_of_cons in Hin as [[= -> ->]|Hin];
          [first [rewrite at_region_norm | rewrite at_country_norm
                 | rewrite at_brand_norm | rewrite at_model_clean
                 | rewrite at_cpu_norm | rewrite at_gpu_norm
                 | rewrite at_resolution_norm];
           by first [apply key_cell_missing | apply model_cell_missing]|]).
  by apply elem_of_nil in Hin.
Qed.

(** C8.  Every normalizer is total, and a missing or empty field value
    gives the empty key.  On a series, the generic normalizer and the
    model-name cleaner give [""] wherever the value is missing or empty;
    [normalize_for_comparison] returns for every frame that has the
    source columns, whatever the values in them, and a missing or empty
    source value (a row without an entry for the column included) gives
    the derived key [""]; two empty keys are equal in the comparisons of
    the matcher, so that two records without CPU, GPU and resolution agree
    on these keys. *)
Theorem normalizers_total :
  (∀ (series : list cell) (i : nat) (v : cell),
     series !! i = Some v → missing v →
     str_lower (str_strip (astype_str (fillna "" series))) !! i = Some (Str "")
     ∧ apply clean_model_name series !! i = Some (Str ""))
  ∧ clean_model_name NaN = "" ∧ clean_model_name (Str "") = ""
  ∧ (∀ (σ : Store) (df : nat) (d : DataFrame) (is_master : bool),
       σ !! df = Some d →
       has_columns d (required_columns is_master) = true →
       ∃ d', normalize_for_comparison df is_master σ
             = Ok (length σ, σ ++ [d'])
             ∧ length (rows d') = length (rows d)
             ∧ ∀ i row row' src dst,
                 rows d !! i = Some row → rows d' !! i = Some row' →
                 (src, dst) ∈ key_columns is_master →
                 missing (at_col src row) → at_col dst row' = Str "")
  ∧ cell_eqb (Str "") (Str "") = true
  ∧ (∀ C M : gmap string cell,
       (∀ col, col ∈ ["CPU Model"; "GPU Model"; "Resolution"] →
               missing (at_col col C) ∧ missing (at_col col M)) →
       agree_spec C M).
Proof.
  split_and!; try done.
  - intros series i v Hi Hv. rewrite normalize_series. unfold apply.
    rewrite !list_lookup_fmap, Hi. cbn [fmap option_fmap option_map].
    fold (key_cell v) (model_cell v).
    by rewrite key_cell_missing, model_cell_missing.
  - intros σ df d b Hdf Hc%has_columns_subseteq.
    exists (normalized b d).
    split; [by apply normalize_for_comparison_run|].
    rewrite rows_normalized, length_fmap. split; [done|].
    intros i row row' src dst Hrow Hrow' Hin Hmiss.
    rewrite list_lookup_fmap, Hrow in Hrow'. injection Hrow' as <-.
    by apply (norm_row_missing b row src).
  - intros C M H. unfold agree_spec, cpu_key, gpu_key, resolution_key.
    assert (∀ col, col ∈ ["CPU Model"; "GPU Model"; "Resolution"] →
              norm_key (at_col col M) = norm_key (at_col col C)) as Hk.
    { intros col [HC HM]%H.
      apply key_cell_missing in HC, HM. unfold key_cell in *. congruence. }
    split_and!; apply Hk; apply list_elem_of_In; simpl; tauto.
Qed.

Lemma normalizers_total_witness :
  ex_store !! 1%nat = Some ex_master
  ∧ has_columns ex_master (required_columns false) = true
  ∧ ∃ d', normalize_for_comparison 1 false ex_store
          = Ok (length ex_store, ex_store ++ [d'])
          ∧ length (rows d') = length (rows ex_master).
Proof.
  split_and!; [reflexivity..|].
  destruct (proj1 (proj2 (proj2 (proj2 normalizers_total)))
              ex_store 1%nat ex_master false eq_refl eq_refl)
    as (d' & Hrun & Hlen & _).
  exists d'. split; [exact Hrun|exact Hlen].
Defined.

(** ** The source field of the country key *)

(** C1, as stated, fails: in [find_matches] the country key of a master
    record is not derived from its ["Country/territory"] field.  The
    master record of the example has the country ["DE"] and the territory
    ["US"]; its normalized copy has the country key ["de"]. *)
Lemma master_country_key_counterexample :
  ∃ lists σ1 master_norm row,
    matcher 0 1 ex_store = Ok (lists, σ1)
    ∧ lists = ([1%nat], [0%nat])
    ∧ normalize_for_comparison 1 false
        (ex_store ++ [normalized false ex_candidates])
      = Ok (3%nat, σ1)
    ∧ σ1 !! 3%nat = Some master_norm
    ∧ rows master_norm !! 0%nat = Some row
    ∧ rows ex_master !! 0%nat = Some ex_master_row
    ∧ at_col "country_norm" row = Str "de"
    ∧ key_cell (at_col (spec_country_field MasterRole) ex_master_row)
      = Str "us"
    ∧ at_col "country_norm" row
      ≠ key_cell (at_col (spec_country_field MasterRole) ex_master_row).
Proof.
  eexists _, _, _, _. split_and!.
  - apply (matcher_run _ _ _ ex_candidates ex_master);
      [reflexivity|reflexivity| |]; by apply has_columns_subseteq.
  - vm_compute. reflexivity.
  - rewrite (normalize_for_comparison_run _ _ ex_master);
      [reflexivity|reflexivity|by apply has_columns_subseteq].
  - reflexivity.
  - reflexivity.
  - reflexivity.
  - vm_compute. reflexivity.
  - vm_compute. reflexivity.
  - vm_compute. discriminate.
Qed.

Lemma normalized_country_key (b : bool) (d : DataFrame) :
  Forall2 (fun row row' =>
             at_col "country_norm" row'
             = Str (norm_key (at_col (if b then "Country/territory"
                                      else "Country") row)))
          (rows d) (rows (normalized b d)).
Proof.
  rewrite rows_normalized. apply Forall2_fmap_r, Forall_Forall2_diag.
  apply Forall_forall. intros row _. unfold compose. cbv beta.
  by rewrite at_country_norm.
Qed.

(** C1, amended.  [normalize_for_comparison] derives the country key from
    the ["Country/territory"] field when it is called with [is_master]
    true and from the ["Country"] field otherwise.  The matcher calls it
    with [is_master] false for the candidate frame and for the master
    frame, so that both country keys are derived from ["Country"]. *)
Theorem country_key_source :
  (∀ (σ : Store) (df : nat) (d : DataFrame) (is_master : bool),
     σ !! df = Some d →
     has_columns d (required_columns is_master) = true →
     ∃ df' σ' d',
       normalize_for_comparison df is_master σ = Ok (df', σ')
       ∧ σ' !! df' = Some d'
       ∧ Forall2 (fun row row' =>
                    at_col "country_norm" row'
                    = Str (norm_key
                             (at_col (if is_master then "Country/territory"
                                      else "Country") row)))
                 (rows d) (rows d'))
  ∧ (∀ (σ : Store) (scraped_df master_df : nat) (ds dm : DataFrame),
       σ !! scraped_df = Some ds → σ !! master_df = Some dm →
       has_columns ds (required_columns false) = true →
       has_columns dm (required_columns false) = true →
       ∃ lists σ0 σ1 scraped_norm master_norm sn mn,
         normalize_for_comparison scraped_df false σ = Ok (scraped_norm, σ0)
         ∧ normalize_for_comparison master_df false σ0 = Ok (master_norm, σ1)
         ∧ matcher scraped_df master_df σ = Ok (lists, σ1)
         ∧ σ1 !! scraped_norm = Some sn
         ∧ σ1 !! master_norm = Some mn
         ∧ match_rows sn mn = Ok lists
         ∧ Forall2 (fun row row' =>
                      at_col "country_norm" row'
                      = Str (norm_key (at_col "Country" row)))
                   (rows ds) (rows sn)
         ∧ Forall2 (fun row row' =>
                      at_col "country_norm" row'
                      = Str (norm_key (at_col "Country" row)))
                   (rows dm) (rows mn)).
Proof.
  split.
  - intros σ df d b Hdf Hc%has_columns_subseteq.
    exists (length σ), (σ ++ [normalized b d]), (normalized b d).
    split; [by apply normalize_for_comparison_run|].
    split; [by apply list_lookup_middle|]. apply normalized_country_key.
  - intros σ s m ds dm Hs Hm Hcs%has_columns_subseteq Hcm%has_columns_subseteq.
    eexists _, (σ ++ [normalized false ds]), _, (length σ), (S (length σ)),
            (normalized false ds), (normalized false dm).
    split_and!.
    + by apply normalize_for_comparison_run.
    + rewrite (normalize_for_comparison_run _ _ dm);
        [|by apply lookup_app_l_Some|done].
      rewrite length_app, <-app_assoc. cbn [length app].
      by rewrite Nat.add_1_r.
    + by apply (matcher_run _ _ _ ds dm).
    + by apply list_lookup_middle.
    + replace (S (length σ)) with (length σ + 1)%nat by lia.
      by rewrite lookup_past.
    + apply match_rows_run; intros; by apply columns_normalized.
    + apply (normalized_country_key false).
    + apply (normalized_country_key false).
Qed.

Lemma country_key_source_witness :
  ex_store !! 1%nat = Some ex_master
  ∧ has_columns ex_master (required_columns true) = true
  ∧ ∃ df' σ' d',
      normalize_for_comparison 1 true ex_store = Ok (df', σ')
      ∧ σ' !! df' = Some d'
      ∧ Forall2 (fun row row' =>
                   at_col "country_norm" row'
                   = Str (norm_key (at_col "Country/territory" row)))
                (rows ex_master) (rows d').
Proof.
  split_and!; [reflexivity..|].
  exact (proj1 country_key_source ex_store 1%nat ex_master true
           eq_refl eq_refl).
Defined.

(** ** A frame without a source column

    The claims above are about frames that have the source columns.  A
    frame without one of them makes [normalize_for_comparison], and
    [find_matches] with it, raise [KeyError]. *)
Example missing_column_raises :
  find_matches 0 1
    [ {| columns := ["Region"; "Brand"]; rows := [ex_same_row] |}; ex_master ]
  = Raise (KeyError "Country").
Proof. vm_compute. reflexivity. Qed.
